(** * Restaurant ordering application ([src/app.py]): model and properties

    A shallow embedding of the order engine of the Flask application:
    the models ([MenuItem], [Order], [OrderItem], [DiningTable]), the
    helpers ([slugify], [parse_order_items]) and the bodies of the views
    that read or change orders, followed by the properties of the
    specification that were checked against them.

    Conventions of the embedding.
    - Python [str] is [string] (a byte string).  The text operations are
      exact on ASCII; a byte above 127 (part of a UTF-8 encoded letter,
      as in the Thai labels of the source) is kept as a letter: it is a
      word character, is not white space and has no lower case (Python
      tells letters from marks and symbols there, the model does not).
    - A [db.Float] column and a Python [float] is a binary64 [float];
      [*] and [+] are the IEEE operations, [round(x, 2)] is [round2].
    - A [db.Integer] column and a Python [int] is [Z] (identifiers, which
      the database numbers from 1, are [nat]).
    - [datetime.utcnow()] reads a clock that is threaded through the
      views; nothing is assumed of its readings.
    - The session ([db.session]) is a record of tables; [commit] stores
      what the view built and never fails.  Authentication, rendering and
      the QR image are left out: a view is modelled from the point where
      [login_required] has let the request through, and its result keeps
      the flashed message and whether it rendered or redirected. *)

From Stdlib Require Import ZArith List Bool Lia.
From Stdlib Require Import Floats Uint63.
From Stdlib Require Import Ascii String DecimalString DecimalNat.
From Stdlib Require Import Sorted Permutation.
From Stdlib Require Finite.
Import ListNotations.

#[local] Set Warnings "-inexact-float".
#[local] Open Scope string_scope.
#[local] Open Scope list_scope.
#[local] Open Scope Z_scope.

(** ** Text: the [str] methods and regular expressions the source uses *)

Module Text.

Definition code (c : ascii) : nat := nat_of_ascii c.

(** [str.isspace] on one character; also the class [\s] of [re] and the
    white space [int()] skips: TAB..CR, FS..US and the space. *)
Definition is_space (c : ascii) : bool :=
  let n := code c in
  ((9 <=? n) && (n <=? 13) || (28 <=? n) && (n <=? 32))%nat.

Definition is_digit (c : ascii) : bool :=
  let n := code c in ((48 <=? n) && (n <=? 57))%nat.

Definition is_upper (c : ascii) : bool :=
  let n := code c in ((65 <=? n) && (n <=? 90))%nat.

Definition is_lower (c : ascii) : bool :=
  let n := code c in ((97 <=? n) && (n <=? 122))%nat.

(** The class [\w] of [re] on a [str] pattern: letters, digits and the
    underscore. *)
Definition is_word (c : ascii) : bool :=
  is_digit c || is_upper c || is_lower c || Ascii.eqb c "_"
  || (128 <=? code c)%nat.

Definition lower_char (c : ascii) : ascii :=
  if is_upper c then ascii_of_nat (code c + 32) else c.

Definition upper_char (c : ascii) : ascii :=
  if is_lower c then ascii_of_nat (code c - 32) else c.

(** [value.lower()] *)
Fixpoint lower (s : string) : string :=
  match s with
  | EmptyString => EmptyString
  | String c r => String (lower_char c) (lower r)
  end.

(** [value.upper()] *)
Fixpoint upper (s : string) : string :=
  match s with
  | EmptyString => EmptyString
  | String c r => String (upper_char c) (upper r)
  end.

Definition is_empty (s : string) : bool :=
  match s with EmptyString => true | String _ _ => false end.

Fixpoint lstrip (s : string) : string :=
  match s with
  | EmptyString => EmptyString
  | String c r => if is_space c then lstrip r else s
  end.

Fixpoint rstrip (s : string) : string :=
  match s with
  | EmptyString => EmptyString
  | String c r =>
      let r' := rstrip r in
      if is_empty r' && is_space c then EmptyString else String c r'
  end.

(** [value.strip()] *)
Definition strip (s : string) : string := rstrip (lstrip s).

(** [re.sub(r"\s+", "-", value)]: every maximal run of white space
    becomes one hyphen.  [in_run] tells that the previous character
    was white space. *)
Fixpoint sub_spaces (in_run : bool) (s : string) : string :=
  match s with
  | EmptyString => EmptyString
  | String c r =>
      if is_space c
      then if in_run then sub_spaces true r
           else String "-" (sub_spaces true r)
      else String c (sub_spaces false r)
  end.

(** [re.sub(r"[^\w-]", "", value)]: only word characters and hyphens
    stay. *)
Fixpoint sub_nonword (s : string) : string :=
  match s with
  | EmptyString => EmptyString
  | String c r =>
      if is_word c || Ascii.eqb c "-"
      then String c (sub_nonword r) else sub_nonword r
  end.

(** [str(n)] of a non-negative integer, as an f-string renders it. *)
Definition str_of_nat (n : nat) : string :=
  NilEmpty.string_of_uint (Nat.to_uint n).

(** The digits of [int()]'s argument after the sign: decimal digits,
    single underscores allowed between two digits.  [after_digit]
    tells that the previous character was a digit. *)
Fixpoint int_digits (after_digit : bool) (acc : Z) (s : string)
  : option Z :=
  match s with
  | EmptyString => if after_digit then Some acc else None
  | String c r =>
      if is_digit c
      then int_digits true (10 * acc + Z.of_nat (code c - 48)) r
      else if Ascii.eqb c "_" && after_digit
           then int_digits false acc r
           else None
  end.

(** [int(s)] on a [str] of ASCII characters: [None] stands for
    [ValueError].  (The bound that recent interpreters put on the number
    of digits is left out.) *)
Definition py_int (s : string) : option Z :=
  match strip s with
  | String "+" r => int_digits false 0 r
  | String "-" r => option_map Z.opp (int_digits false 0 r)
  | r => int_digits false 0 r
  end.

End Text.

(** ** [slugify] (lines 88-92) *)

Definition slugify (value : string) : string :=
  let value := Text.lower (Text.strip value) in
  let value := Text.sub_spaces false value in
  let value := Text.sub_nonword value in
  if Text.is_empty value then "section" else value.

#[global] Arguments slugify : simpl never.

(** ** Time: [datetime] values and the clock behind [datetime.utcnow] *)

Record date := mk_date { year : Z; month : Z; day : Z }.

Record datetime := mk_datetime {
  dt_date : date;   (* [d.date()] *)
  hour : Z;
  minute : Z;
  second : Z;
  microsecond : Z
}.

Definition date_eqb (a b : date) : bool :=
  (year a =? year b) && (month a =? month b) && (day a =? day b).

(** The fields of a timestamp, most significant first: timestamps are
    ordered as these lists are. *)
Definition dt_fields (d : datetime) : list Z :=
  [year (dt_date d); month (dt_date d); day (dt_date d);
   hour d; minute d; second d; microsecond d].

Fixpoint lex_leb (a b : list Z) : bool :=
  match a, b with
  | [], _ => true
  | _ :: _, [] => false
  | x :: a', y :: b' => (x <? y) || (x =? y) && lex_leb a' b'
  end.

Definition dt_leb (a b : datetime) : bool := lex_leb (dt_fields a) (dt_fields b).

(** The clock: [readings n] is what the [n]-th call of
    [datetime.utcnow()] returns, [ticks] counts the calls made. *)
Record Clock := mk_clock { readings : nat -> datetime; ticks : nat }.

Definition utcnow (c : Clock) : datetime * Clock :=
  (readings c (ticks c), mk_clock (readings c) (S (ticks c))).

(** ** Numbers: Python's [float] arithmetic *)

Module Num.

(** [n / d] rounded to the nearest integer, ties to the even one
    ([0 <= n], [0 < d]). *)
Definition round_half_even (n d : Z) : Z :=
  let q := n / d in
  match 2 * (n mod d) ?= d with
  | Lt => q
  | Gt => q + 1
  | Eq => if Z.even q then q else q + 1
  end.

(** [round(x, 2)]: the binary64 value nearest to the decimal with two
    places that is nearest to the exact value of [x] (ties to even,
    both times).  [|x| = m * 2^e]; [n] is [|x| * 100] rounded to an
    integer.  Below [2^53] the integer [n] is a [float] and the
    division rounds [n / 100] correctly; from there on [x] is above
    [2^46], where neighbouring floats are further apart than 0.01 and
    [x] rounds to itself.  Zeros, infinities and NaN round to
    themselves. *)
Definition round2 (x : float) : float :=
  match Prim2SF x with
  | S754_finite s m e =>
      let n := if 0 <=? e then Zpos m * 100 * 2 ^ e
               else round_half_even (Zpos m * 100) (2 ^ (- e)) in
      if 2 ^ 53 <=? n then x
      else
        let r := PrimFloat.div (PrimFloat.of_uint63 (Uint63.of_Z n)) 100 in
        if s then PrimFloat.opp r else r
  | _ => x
  end.

(** The binary64 value nearest to an integer (ties to even), infinite
    beyond the largest one. *)
Definition nearest_float (z : Z) : float :=
  SF2Prim (binary_normalize prec emax z 0 false).

(** The conversion of an [int] operand of a mixed [int * float]
    product: the nearest binary64 value, or [None] for
    [OverflowError] ("int too large to convert to float"). *)
Definition float_of_int (z : Z) : option float :=
  let f := nearest_float z in
  if PrimFloat.is_infinity f then None else Some f.

(** [sum(xs)]: the accumulation from the left, starting from 0
    (interpreters from 3.12 on carry a compensation term along). *)
Definition sum (xs : list float) : float :=
  fold_left PrimFloat.add xs PrimFloat.zero.

End Num.

#[global] Arguments Num.round2 : simpl never.
#[global] Arguments Num.nearest_float : simpl never.
#[global] Arguments Num.sum : simpl never.

(** ** The models (lines 29-82) *)

Module DiningTable.
Record t := mk { id : nat; code : string; name : string }.
End DiningTable.

Module MenuItem.
Record t := mk {
  id : nat;
  name : string;
  description : string;
  price : float;
  category : option string;
  available : bool
}.
End MenuItem.

Module OrderItem.

Record t := mk {
  id : nat;
  order_id : nat;
  menu_item_id : nat;
  quantity : Z;
  price : float
}.

(** [round(self.quantity * self.price, 2)]; [None] when the quantity
    is too large to be converted for the product. *)
Definition subtotal (self : t) : option float :=
  match Num.float_of_int (quantity self) with
  | Some q => Some (Num.round2 (PrimFloat.mul q (price self)))
  | None => None
  end.

End OrderItem.

Module Order.

Record t := mk {
  id : nat;
  table_id : nat;
  status : string;
  total_amount : float;
  created_at : datetime;
  updated_at : datetime;
  requested_assistance : bool;
  created_by_id : option nat;
  paid_at : option datetime;
  payment_method : option string;
  items : list OrderItem.t
}.

Definition set_status (v : string) (o : t) : t :=
  mk (id o) (table_id o) v (total_amount o) (created_at o) (updated_at o)
     (requested_assistance o) (created_by_id o) (paid_at o)
     (payment_method o) (items o).

Definition set_total_amount (v : float) (o : t) : t :=
  mk (id o) (table_id o) (status o) v (created_at o) (updated_at o)
     (requested_assistance o) (created_by_id o) (paid_at o)
     (payment_method o) (items o).

Definition set_created_at (v : datetime) (o : t) : t :=
  mk (id o) (table_id o) (status o) (total_amount o) v (updated_at o)
     (requested_assistance o) (created_by_id o) (paid_at o)
     (payment_method o) (items o).

Definition set_updated_at (v : datetime) (o : t) : t :=
  mk (id o) (table_id o) (status o) (total_amount o) (created_at o) v
     (requested_assistance o) (created_by_id o) (paid_at o)
     (payment_method o) (items o).

Definition set_requested_assistance (v : bool) (o : t) : t :=
  mk (id o) (table_id o) (status o) (total_amount o) (created_at o)
     (updated_at o) v (created_by_id o) (paid_at o)
     (payment_method o) (items o).

Definition set_paid_at (v : option datetime) (o : t) : t :=
  mk (id o) (table_id o) (status o) (total_amount o) (created_at o)
     (updated_at o) (requested_assistance o) (created_by_id o) v
     (payment_method o) (items o).

Definition set_payment_method (v : option string) (o : t) : t :=
  mk (id o) (table_id o) (status o) (total_amount o) (created_at o)
     (updated_at o) (requested_assistance o) (created_by_id o)
     (paid_at o) v (items o).

(** [self.status not in {"paid", "cancelled"}] *)
Definition is_active (self : t) : bool :=
  negb (existsb (String.eqb (status self)) ["paid"; "cancelled"]).

(** The subtotals of the line items in order, [None] as soon as one of
    them raises. *)
Fixpoint subtotals (its : list OrderItem.t) : option (list float) :=
  match its with
  | [] => Some []
  | it :: rest =>
      match OrderItem.subtotal it with
      | None => None
      | Some s =>
          match subtotals rest with
          | None => None
          | Some ss => Some (s :: ss)
          end
      end
  end.

(** [self.total_amount = sum(item.subtotal for item in self.items)]
    then [self.updated_at = datetime.utcnow()]; [None] when a subtotal
    raises [OverflowError], before anything is assigned. *)
Definition recalculate_total (self : t) (clk : Clock) : option (t * Clock) :=
  match subtotals (items self) with
  | None => None
  | Some ss =>
      let self := set_total_amount (Num.sum ss) self in
      let (now, clk) := utcnow clk in
      Some (set_updated_at now self, clk)
  end.

End Order.

(** [STATUS_FLOW] (line 85) *)
Definition STATUS_FLOW : list string :=
  ["pending"; "preparing"; "served"; "completed"; "paid"].

(** ** The database and what a view returns *)

Record Db := mk_db {
  dining_tables : list DiningTable.t;
  menu_items : list MenuItem.t;
  orders : list Order.t
}.

Record App := mk_app { db : Db; clock : Clock }.

(** [request.form]: the submitted fields in order; [get] takes the first
    value of a key. *)
Definition Form := list (string * string).

Fixpoint form_get (form : Form) (key : string) : option string :=
  match form with
  | [] => None
  | (k, v) :: rest => if String.eqb k key then Some v else form_get rest key
  end.

(** [request.form.get(key, "")] *)
Definition form_get_or_empty (form : Form) (key : string) : string :=
  match form_get form key with Some v => v | None => "" end.

Record Flash := mk_flash { message : string; category : string }.

Inductive Response :=
| Rendered (template : string)
| Redirected (endpoint : string)
| Aborted (status_code : nat)
| Raised (exception : string).

(** What a view leaves behind: its response, the messages it flashed
    and the application after it. *)
Record Outcome := mk_outcome {
  response : Response;
  flashes : list Flash;
  after : App
}.

(** ** Queries *)

Section OrderBy.
Context {A : Type} (leb : A -> A -> bool).

Fixpoint insert_sorted (x : A) (l : list A) : list A :=
  match l with
  | [] => [x]
  | y :: rest => if leb x y then x :: l else y :: insert_sorted x rest
  end.

(** [ORDER BY]: rows that compare equal keep the order of the table. *)
Fixpoint order_by (l : list A) : list A :=
  match l with
  | [] => []
  | x :: rest => insert_sorted x (order_by rest)
  end.
End OrderBy.

(** [Order.created_at.desc()]: [a] comes no later than [b] in the
    result when it was created no earlier. *)
Definition created_at_desc (a b : Order.t) : bool :=
  dt_leb (Order.created_at b) (Order.created_at a).

Definition by_name (a b : MenuItem.t) : bool :=
  String.leb (MenuItem.name a) (MenuItem.name b).

(** [ORDER BY category, name]: a NULL category sorts first. *)
Definition by_category_name (a b : MenuItem.t) : bool :=
  match MenuItem.category a, MenuItem.category b with
  | None, None => by_name a b
  | None, Some _ => true
  | Some _, None => false
  | Some ca, Some cb =>
      if String.eqb ca cb then by_name a b else String.leb ca cb
  end.

Definition by_code (a b : DiningTable.t) : bool :=
  String.leb (DiningTable.code a) (DiningTable.code b).

Definition not_paid (o : Order.t) : bool :=
  negb (String.eqb (Order.status o) "paid").

Definition is_paid (o : Order.t) : bool := String.eqb (Order.status o) "paid".

(** [Model.query.get(id)] *)
Definition get_order (d : Db) (order_id : nat) : option Order.t :=
  find (fun o => Nat.eqb (Order.id o) order_id) (orders d).

Definition get_menu_item (d : Db) (item_id : nat) : option MenuItem.t :=
  find (fun m => Nat.eqb (MenuItem.id m) item_id) (menu_items d).

Definition get_table (d : Db) (table_id : nat) : option DiningTable.t :=
  find (fun t => Nat.eqb (DiningTable.id t) table_id) (dining_tables d).

(** [DiningTable.query.get(table_id)] with the submitted text: the table
    whose identifier is written that way. *)
Definition get_table_by_text (d : Db) (table_id : option string)
  : option DiningTable.t :=
  match table_id with
  | None => None
  | Some s =>
      find (fun t => String.eqb (Text.str_of_nat (DiningTable.id t)) s)
           (dining_tables d)
  end.

(** [DiningTable.query.filter_by(code=code).first()] *)
Definition table_by_code (d : Db) (code : string) : option DiningTable.t :=
  find (fun t => String.eqb (DiningTable.code t) code) (dining_tables d).

(** The next value of an integer primary key. *)
Definition next_id (ids : list nat) : nat := S (list_max ids).

Definition all_order_items (d : Db) : list OrderItem.t :=
  flat_map Order.items (orders d).

(** ** [parse_order_items] (lines 137-147) *)

(** [int(raw_qty or 0)] under [except ValueError: qty = 0] *)
Definition parse_qty (raw_qty : option string) : Z :=
  match raw_qty with
  | None => 0
  | Some s =>
      if Text.is_empty s then 0
      else match Text.py_int s with
           | Some qty => qty
           | None => 0
           end
  end.

Definition item_key (item : MenuItem.t) : string :=
  ("item_" ++ Text.str_of_nat (MenuItem.id item))%string.

Definition parse_order_items (form_data : Form) (menu_items : list MenuItem.t)
  : list (MenuItem.t * Z) :=
  fold_left
    (fun selected_items item =>
       let raw_qty := form_get form_data (item_key item) in
       let qty := parse_qty raw_qty in
       if 0 <? qty then selected_items ++ [(item, qty)] else selected_items)
    menu_items [].

(** ** Creating an order (lines 365-376 and 457-468) *)

(** What a [DateTime] column holds between the construction of a row and
    the assignment or INSERT that fills it. *)
Definition unset : datetime := mk_datetime (mk_date 0 0 0) 0 0 0 0.

(** One [OrderItem] per selection, with the price of the menu item as it
    is now; [next] is the identifier the first of them gets. *)
Fixpoint order_items_of (order_id next : nat)
  (selected_items : list (MenuItem.t * Z)) : list OrderItem.t :=
  match selected_items with
  | [] => []
  | (menu_item, qty) :: rest =>
      OrderItem.mk next order_id (MenuItem.id menu_item) qty
        (MenuItem.price menu_item)
      :: order_items_of order_id (S next) rest
  end.

(** The block the two ordering views share: [Order(table=table,
    status="pending", created_by=...)], one [OrderItem] per selection,
    [order.recalculate_total()], [db.session.commit()].  The INSERT
    assigns the identifiers and calls the default of [created_at].
    [None] when [recalculate_total] raises. *)
Definition place_order (a : App) (table : DiningTable.t)
  (created_by : option nat) (selected_items : list (MenuItem.t * Z))
  : option (Order.t * App) :=
  let d := db a in
  let order_id := next_id (map Order.id (orders d)) in
  let its := order_items_of order_id
               (next_id (map OrderItem.id (all_order_items d)))
               selected_items in
  let order := Order.mk order_id (DiningTable.id table) "pending"
                 PrimFloat.zero unset unset false created_by None None its in
  match Order.recalculate_total order (clock a) with
  | None => None
  | Some (order, clk) =>
      let (now, clk) := utcnow clk in
      let order := Order.set_created_at now order in
      Some (order,
            mk_app (mk_db (dining_tables d) (menu_items d)
                          (orders d ++ [order])) clk)
  end.

Inductive Method := GET | POST.

Definition flash_no_table : Flash :=
  mk_flash "กรุณาเลือกโต๊ะ" "danger".
Definition flash_no_items : Flash :=
  mk_flash "กรุณาเลือกเมนูอย่างน้อย 1 รายการ" "danger".
Definition flash_order_created : Flash :=
  mk_flash "สร้างออเดอร์เรียบร้อย" "success".
Definition flash_order_sent : Flash :=
  mk_flash "ส่งออเดอร์เรียบร้อย กรุณารอพนักงานยืนยัน" "success".
Definition flash_invalid_status : Flash :=
  mk_flash "สถานะไม่ถูกต้อง" "danger".
Definition flash_status_updated : Flash :=
  mk_flash "อัปเดตสถานะเรียบร้อย" "success".
Definition flash_acknowledged : Flash :=
  mk_flash "รับทราบการเรียกพนักงานแล้ว" "info".
Definition flash_staff_called : Flash :=
  mk_flash "แจ้งพนักงานเรียบร้อย กรุณารอสักครู่" "info".

(** The menu the staff form offers (line 350). *)
Definition staff_menu (d : Db) : list MenuItem.t :=
  order_by by_name (filter MenuItem.available (menu_items d)).

(** [staff_new_order] (lines 348-381); [user] is [g.user]. *)
Definition staff_new_order (user : option nat) (method : Method)
  (form : Form) (a : App) : Outcome :=
  let menu := staff_menu (db a) in
  match method with
  | GET => mk_outcome (Rendered "staff/order_form.html") [] a
  | POST =>
      match get_table_by_text (db a) (form_get form "table_id") with
      | None =>
          mk_outcome (Rendered "staff/order_form.html") [flash_no_table] a
      | Some table =>
          let selected_items := parse_order_items form menu in
          match selected_items with
          | [] =>
              mk_outcome (Rendered "staff/order_form.html") [flash_no_items] a
          | _ :: _ =>
              match place_order a table user selected_items with
              | None => mk_outcome (Raised "OverflowError") [] a
              | Some (_, a') =>
                  mk_outcome (Redirected "staff_order_detail")
                             [flash_order_created] a'
              end
          end
      end
  end.

(** ** Changing the status (lines 391-408) *)

(** [status in STATUS_FLOW], for the value of [request.form.get]: a
    missing field ([None]) is in no list of strings. *)
Definition in_status_flow (status : option string) : bool :=
  match status with
  | None => false
  | Some s => existsb (String.eqb s) STATUS_FLOW
  end.
#[global] Arguments in_status_flow : simpl never.

(** The assignments of lines 397-405, for a [status] of [STATUS_FLOW]. *)
Definition set_order_status (status : string) (form : Form)
  (order : Order.t) (clk : Clock) : Order.t * Clock :=
  let order := Order.set_status status order in
  let (now, clk) := utcnow clk in
  let order := Order.set_updated_at now order in
  if String.eqb status "paid"
  then
    let (now, clk) := utcnow clk in
    let order := Order.set_paid_at (Some now) order in
    let payment_method :=
      Text.strip (form_get_or_empty form "payment_method") in
    let order :=
      Order.set_payment_method
        (if Text.is_empty payment_method then None else Some payment_method)
        order in
    (order, clk)
  else
    let order := Order.set_payment_method None order in
    let order := Order.set_paid_at None order in
    (order, clk).

(** The row of [order] in the table, replaced by [order]. *)
Definition store_order (order : Order.t) (d : Db) : Db :=
  mk_db (dining_tables d) (menu_items d)
        (map (fun o => if Nat.eqb (Order.id o) (Order.id order)
                       then order else o)
             (orders d)).

Definition staff_update_status (order_id : nat) (form : Form) (a : App)
  : Outcome :=
  match get_order (db a) order_id with
  | None => mk_outcome (Aborted 404) [] a
  | Some order =>
      match form_get form "status" with
      | Some status =>
          if in_status_flow (Some status)
          then
            let (order, clk) := set_order_status status form order (clock a) in
            mk_outcome (Redirected "staff_order_detail")
                       [flash_status_updated]
                       (mk_app (store_order order (db a)) clk)
          else
            mk_outcome (Redirected "staff_order_detail")
                       [flash_invalid_status] a
      | None =>
          mk_outcome (Redirected "staff_order_detail")
                     [flash_invalid_status] a
      end
  end.

(** [staff_acknowledge] (lines 412-418) *)
Definition staff_acknowledge (order_id : nat) (a : App) : Outcome :=
  match get_order (db a) order_id with
  | None => mk_outcome (Aborted 404) [] a
  | Some order =>
      let order := Order.set_requested_assistance false order in
      let (now, clk) := utcnow (clock a) in
      let order := Order.set_updated_at now order in
      mk_outcome (Redirected "staff_order_detail") [flash_acknowledged]
                 (mk_app (store_order order (db a)) clk)
  end.

(** [Order.query.filter_by(id=order_id, table=table).first()] *)
Definition get_order_of_table (d : Db) (order_id : nat)
  (table : DiningTable.t) : option Order.t :=
  find (fun o => Nat.eqb (Order.id o) order_id
                 && Nat.eqb (Order.table_id o) (DiningTable.id table))
       (orders d).

(** [customer_call_staff] (lines 494-501) *)
Definition customer_call_staff (code : string) (order_id : nat) (a : App)
  : Outcome :=
  match table_by_code (db a) (Text.upper code) with
  | None => mk_outcome (Aborted 404) [] a
  | Some table =>
      match get_order_of_table (db a) order_id table with
      | None => mk_outcome (Aborted 404) [] a
      | Some order =>
          let order := Order.set_requested_assistance true order in
          let (now, clk) := utcnow (clock a) in
          let order := Order.set_updated_at now order in
          mk_outcome (Redirected "customer_order_summary")
                     [flash_staff_called]
                     (mk_app (store_order order (db a)) clk)
      end
  end.

(** ** Menu sections and the customer view (lines 422-477) *)

Record MenuSection := mk_section {
  section_name : string;              (* ["name"] *)
  anchor : string;                    (* ["anchor"] *)
  section_items : list MenuItem.t     (* ["items"] *)
}.

(** The label shown for items without a category. *)
Definition fallback_label : string := "เมนูแนะนำ".

(** [item.category or "..."] *)
Definition category_name (item : MenuItem.t) : string :=
  match MenuItem.category item with
  | None => fallback_label
  | Some c => if Text.is_empty c then fallback_label else c
  end.

#[global] Arguments category_name : simpl never.

(** [menu_sections[-1]], if there is one. *)
Fixpoint last_section (menu_sections : list MenuSection) : option MenuSection :=
  match menu_sections with
  | [] => None
  | [s] => Some s
  | _ :: rest => last_section rest
  end.

(** [menu_sections[-1]["items"].append(item)] *)
Fixpoint append_to_last (menu_sections : list MenuSection) (item : MenuItem.t)
  : list MenuSection :=
  match menu_sections with
  | [] => []
  | [s] => [mk_section (section_name s) (anchor s) (section_items s ++ [item])]
  | s :: rest => s :: append_to_last rest item
  end.

(** One turn of the loop of lines 431-439, on the pair of
    [menu_sections] and [fallback_index]. *)
Definition add_to_sections (state : list MenuSection * nat)
  (item : MenuItem.t) : list MenuSection * nat :=
  let (menu_sections, fallback_index) := state in
  let category_name := category_name item in
  let starts_section :=
    match last_section menu_sections with
    | None => true
    | Some s => negb (String.eqb (section_name s) category_name)
    end in
  let (menu_sections, fallback_index) :=
    if starts_section
    then
      let anchor := slugify category_name in
      let (anchor, fallback_index) :=
        if String.eqb anchor "section"
        then (("section-" ++ Text.str_of_nat fallback_index)%string,
              S fallback_index)
        else (anchor, fallback_index) in
      (menu_sections ++ [mk_section category_name anchor []], fallback_index)
    else (menu_sections, fallback_index) in
  (append_to_last menu_sections item, fallback_index).

(** The loop with its final [fallback_index]. *)
Definition build_sections (menu_items : list MenuItem.t)
  : list MenuSection * nat :=
  fold_left add_to_sections menu_items ([], 1%nat).

Definition menu_sections (menu_items : list MenuItem.t) : list MenuSection :=
  fst (build_sections menu_items).

(** The menu of the customer view (lines 424-428). *)
Definition customer_menu (d : Db) : list MenuItem.t :=
  order_by by_category_name (filter MenuItem.available (menu_items d)).

(** [active_orders] (lines 440-444) *)
Definition active_orders (d : Db) (table : DiningTable.t) : list Order.t :=
  order_by created_at_desc
    (filter (fun o => Nat.eqb (Order.table_id o) (DiningTable.id table)
                      && not_paid o)
            (orders d)).

(** [table_view]; the page shows [menu_sections (customer_menu d)] and
    [active_orders d table]. *)
Definition table_view (code : string) (method : Method) (form : Form)
  (a : App) : Outcome :=
  match table_by_code (db a) (Text.upper code) with
  | None => mk_outcome (Aborted 404) [] a
  | Some table =>
      let menu := customer_menu (db a) in
      match method with
      | GET => mk_outcome (Rendered "customer/table_view.html") [] a
      | POST =>
          let selected_items := parse_order_items form menu in
          match selected_items with
          | [] =>
              mk_outcome (Rendered "customer/table_view.html")
                         [flash_no_items] a
          | _ :: _ =>
              match place_order a table None selected_items with
              | None => mk_outcome (Raised "OverflowError") [] a
              | Some (_, a') =>
                  mk_outcome (Redirected "customer_order_summary")
                             [flash_order_sent] a'
              end
          end
      end
  end.

(** ** The staff and admin overviews (lines 183-210, 337-344) *)

(** [coalesce(sum(total_amount), 0)] over the selected rows. *)
Definition sum_total_amount (rows : list Order.t) : float :=
  match rows with
  | [] => PrimFloat.zero
  | _ :: _ => Num.sum (map Order.total_amount rows)
  end.

(** [total_sales] (lines 184-188) *)
Definition total_sales (d : Db) : float :=
  sum_total_amount (filter is_paid (orders d)).

(** The filter of lines 192-196: paid, with a [paid_at] whose date is
    [today]. *)
Definition paid_on (today : date) (o : Order.t) : bool :=
  is_paid o
  && match Order.paid_at o with
     | None => false
     | Some t => date_eqb (dt_date t) today
     end.

(** [today_sales] (lines 190-198) *)
Definition today_sales (today : date) (d : Db) : float :=
  sum_total_amount (filter (paid_on today) (orders d)).

(** [open_orders] of the admin dashboard (lines 199-204) *)
Definition open_orders (d : Db) : list Order.t :=
  firstn 10 (order_by created_at_desc (filter not_paid (orders d))).

(** [open_orders] of the staff dashboard (lines 338-342) *)
Definition staff_open_orders (d : Db) : list Order.t :=
  order_by created_at_desc (filter not_paid (orders d)).

Record Dashboard := mk_dashboard {
  dash_total_sales : float;
  dash_today_sales : float;
  dash_open_orders : list Order.t
}.

(** [admin_dashboard]: what the page is rendered with. *)
Definition admin_dashboard (a : App) : Dashboard * App :=
  let total := total_sales (db a) in
  let (now, clk) := utcnow (clock a) in
  let today := dt_date now in
  (mk_dashboard total (today_sales today (db a)) (open_orders (db a)),
   mk_app (db a) clk).

(** ** Maintaining the catalogue (lines 214-314) *)

Definition flash_bad_price : Flash :=
  mk_flash "กรุณากรอกราคาที่ถูกต้อง" "danger".
Definition flash_no_name : Flash :=
  mk_flash "กรุณากรอกชื่อเมนู" "danger".
Definition flash_menu_added : Flash :=
  mk_flash "เพิ่มเมนูเรียบร้อย" "success".
Definition flash_menu_edited : Flash :=
  mk_flash "แก้ไขเมนูเรียบร้อย" "success".
Definition flash_menu_deleted : Flash :=
  mk_flash "ลบเมนูเรียบร้อย" "info".
Definition flash_table_fields : Flash :=
  mk_flash "กรุณากรอกชื่อโต๊ะและรหัสโต๊ะ" "danger".
Definition flash_table_exists : Flash :=
  mk_flash "มีรหัสโต๊ะนี้อยู่แล้ว" "danger".
Definition flash_table_added : Flash :=
  mk_flash "เพิ่มโต๊ะเรียบร้อย" "success".
Definition flash_table_has_orders : Flash :=
  mk_flash "ไม่สามารถลบโต๊ะที่มีออเดอร์อยู่ได้" "danger".
Definition flash_table_deleted : Flash :=
  mk_flash "ลบโต๊ะเรียบร้อย" "info".

(** [request.form.get("category", "").strip() or None] *)
Definition form_category (form : Form) : option string :=
  let c := Text.strip (form_get_or_empty form "category") in
  if Text.is_empty c then None else Some c.

(** [bool(request.form.get("available"))] *)
Definition form_available (form : Form) : bool :=
  match form_get form "available" with
  | None => false
  | Some v => negb (Text.is_empty v)
  end.

(** [admin_menu_new]; [price_value] is the value of [float(price)],
    [None] when it raises [TypeError] or [ValueError]. *)
Definition admin_menu_new (method : Method) (form : Form)
  (price_value : option float) (a : App) : Outcome :=
  match method with
  | GET => mk_outcome (Rendered "admin/menu_form.html") [] a
  | POST =>
      let name := Text.strip (form_get_or_empty form "name") in
      let description := Text.strip (form_get_or_empty form "description") in
      let category := form_category form in
      let available := form_available form in
      match price_value with
      | None =>
          mk_outcome (Rendered "admin/menu_form.html") [flash_bad_price] a
      | Some price_value =>
          if Text.is_empty name
          then mk_outcome (Rendered "admin/menu_form.html") [flash_no_name] a
          else
            let d := db a in
            let item :=
              MenuItem.mk (next_id (map MenuItem.id (menu_items d))) name
                description (Num.round2 price_value) category available in
            mk_outcome (Redirected "admin_menu") [flash_menu_added]
              (mk_app (mk_db (dining_tables d) (menu_items d ++ [item])
                             (orders d)) (clock a))
      end
  end.

(** The row of [item] in the table, replaced by [item]. *)
Definition store_menu_item (item : MenuItem.t) (d : Db) : Db :=
  mk_db (dining_tables d)
        (map (fun m => if Nat.eqb (MenuItem.id m) (MenuItem.id item)
                       then item else m)
             (menu_items d))
        (orders d).

Definition admin_menu_edit (item_id : nat) (method : Method) (form : Form)
  (price_value : option float) (a : App) : Outcome :=
  match get_menu_item (db a) item_id with
  | None => mk_outcome (Aborted 404) [] a
  | Some item =>
      match method with
      | GET => mk_outcome (Rendered "admin/menu_form.html") [] a
      | POST =>
          let name := Text.strip (form_get_or_empty form "name") in
          let description :=
            Text.strip (form_get_or_empty form "description") in
          let category := form_category form in
          let available := form_available form in
          match price_value with
          | None =>
              mk_outcome (Rendered "admin/menu_form.html") [flash_bad_price] a
          | Some price_value =>
              if Text.is_empty name
              then mk_outcome (Rendered "admin/menu_form.html")
                              [flash_no_name] a
              else
                let item :=
                  MenuItem.mk (MenuItem.id item) name description
                    (Num.round2 price_value) category available in
                mk_outcome (Redirected "admin_menu") [flash_menu_edited]
                  (mk_app (store_menu_item item (db a)) (clock a))
          end
      end
  end.

Definition admin_menu_delete (item_id : nat) (a : App) : Outcome :=
  match get_menu_item (db a) item_id with
  | None => mk_outcome (Aborted 404) [] a
  | Some item =>
      let d := db a in
      mk_outcome (Redirected "admin_menu") [flash_menu_deleted]
        (mk_app
           (mk_db (dining_tables d)
              (filter (fun m => negb (Nat.eqb (MenuItem.id m) (MenuItem.id item)))
                      (menu_items d))
              (orders d))
           (clock a))
  end.

Definition admin_tables (method : Method) (form : Form) (a : App) : Outcome :=
  match method with
  | GET => mk_outcome (Rendered "admin/tables.html") [] a
  | POST =>
      let name := Text.strip (form_get_or_empty form "name") in
      let code := Text.upper (Text.strip (form_get_or_empty form "code")) in
      let d := db a in
      if Text.is_empty name || Text.is_empty code
      then mk_outcome (Redirected "admin_tables") [flash_table_fields] a
      else
        match table_by_code d code with
        | Some _ =>
            mk_outcome (Redirected "admin_tables") [flash_table_exists] a
        | None =>
            let table :=
              DiningTable.mk (next_id (map DiningTable.id (dining_tables d)))
                code name in
            mk_outcome (Redirected "admin_tables") [flash_table_added]
              (mk_app (mk_db (dining_tables d ++ [table]) (menu_items d)
                             (orders d)) (clock a))
        end
  end.

(** [table.orders] *)
Definition orders_of_table (d : Db) (table : DiningTable.t) : list Order.t :=
  filter (fun o => Nat.eqb (Order.table_id o) (DiningTable.id table))
         (orders d).

Definition admin_table_delete (table_id : nat) (a : App) : Outcome :=
  match get_table (db a) table_id with
  | None => mk_outcome (Aborted 404) [] a
  | Some table =>
      let d := db a in
      match orders_of_table d table with
      | _ :: _ =>
          mk_outcome (Redirected "admin_tables") [flash_table_has_orders] a
      | [] =>
          mk_outcome (Redirected "admin_tables") [flash_table_deleted]
            (mk_app
               (mk_db
                  (filter (fun t => negb (Nat.eqb (DiningTable.id t)
                                                  (DiningTable.id table)))
                          (dining_tables d))
                  (menu_items d) (orders d))
               (clock a))
      end
  end.

(** ** Start-up and the application as a whole *)

(** [seed_data] (lines 508-532), without the users: tables and menu
    items are added to a table that has no row. *)
Definition seed_data (d : Db) : Db :=
  let tables :=
    match dining_tables d with
    | [] => [DiningTable.mk 1 "T1" "โต๊ะ 1";
             DiningTable.mk 2 "T2" "โต๊ะ 2";
             DiningTable.mk 3 "VIP" "โต๊ะ VIP"]
    | ts => ts
    end in
  let menu :=
    match menu_items d with
    | [] => [MenuItem.mk 1 "ผัดไทยกุ้งสด" "" 80 (Some "อาหารจานหลัก") true;
             MenuItem.mk 2 "ต้มยำกุ้ง" "" 120 (Some "ซุป") true;
             MenuItem.mk 3 "ชาเย็น" "" 45 (Some "เครื่องดื่ม") true;
             MenuItem.mk 4 "ข้าวเหนียวมะม่วง" "" 60 (Some "ของหวาน") true]
    | ms => ms
    end in
  mk_db tables menu (orders d).

Definition empty_db : Db := mk_db [] [] [].

(** The requests that change the database. *)
Inductive Request :=
| AdminMenuNew (method : Method) (form : Form) (price_value : option float)
| AdminMenuEdit (item_id : nat) (method : Method) (form : Form)
    (price_value : option float)
| AdminMenuDelete (item_id : nat)
| AdminTables (method : Method) (form : Form)
| AdminTableDelete (table_id : nat)
| StaffNewOrder (user : option nat) (method : Method) (form : Form)
| StaffUpdateStatus (order_id : nat) (form : Form)
| StaffAcknowledge (order_id : nat)
| TableView (code : string) (method : Method) (form : Form)
| CustomerCallStaff (code : string) (order_id : nat).

Definition handle (r : Request) (a : App) : Outcome :=
  match r with
  | AdminMenuNew m f p => admin_menu_new m f p a
  | AdminMenuEdit i m f p => admin_menu_edit i m f p a
  | AdminMenuDelete i => admin_menu_delete i a
  | AdminTables m f => admin_tables m f a
  | AdminTableDelete i => admin_table_delete i a
  | StaffNewOrder u m f => staff_new_order u m f a
  | StaffUpdateStatus i f => staff_update_status i f a
  | StaffAcknowledge i => staff_acknowledge i a
  | TableView c m f => table_view c m f a
  | CustomerCallStaff c i => customer_call_staff c i a
  end.

(** The applications that can arise: a first start on an empty
    database, then any requests and restarts ([init_database] runs
    [seed_data] at every start of the process). *)
Inductive reachable : App -> Prop :=
| reachable_start : forall clk,
    reachable (mk_app (seed_data empty_db) clk)
| reachable_restart : forall a clk,
    reachable a -> reachable (mk_app (seed_data (db a)) clk)
| reachable_handle : forall r a,
    reachable a -> reachable (after (handle r a)).

(** ** The specification's readings, for comparison *)

(** The payment method the view stores for a paid order. *)
Definition stored_payment_method (form : Form) : option string :=
  let v := Text.strip (form_get_or_empty form "payment_method") in
  if Text.is_empty v then None else Some v.

(** The payment method of the specification's words: the value the
    caller supplied, nil when it is blank. *)
Definition supplied_payment_method (form : Form) : option string :=
  match form_get form "payment_method" with
  | None => None
  | Some v => if Text.is_empty (Text.strip v) then None else Some v
  end.


(** The quantity [parse_order_items] reads for a menu item. *)
Definition item_qty (form : Form) (item : MenuItem.t) : Z :=
  parse_qty (form_get form (item_key item)).





(** The numbered anchor of line 436. *)
Definition fallback_anchor (n : nat) : string :=
  ("section-" ++ Text.str_of_nat n)%string.

(** The section is one whose category slugs to "section". *)
Definition needs_fallback (s : MenuSection) : bool :=
  String.eqb (slugify (section_name s)) "section".

(** No two neighbours of the list are equal. *)
Fixpoint adjacent_differ (names : list string) : Prop :=
  match names with
  | a :: (b :: _) as rest => a <> b /\ adjacent_differ rest
  | _ => True
  end.

(** What the loop of [menu_sections] maintains: after the items
    [done], the sections hold these items in order, each section holds
    at least one item and only items of its label, neighbouring
    sections differ in label, the sections in need of a fallback
    anchor carry the numbers from 1 on in order, the others carry their
    slug, and [fallback_index] is the next number. *)
Definition sections_inv (done : list MenuItem.t)
  (state : list MenuSection * nat) : Prop :=
  let (secs, fallback_index) := state in
  List.concat (map section_items secs) = done
  /\ Forall (fun s => section_items s <> []
                      /\ Forall (fun item => category_name item = section_name s)
                                (section_items s)) secs
  /\ adjacent_differ (map section_name secs)
  /\ map anchor (filter needs_fallback secs)
     = map fallback_anchor
           (seq 1 (List.length (filter needs_fallback secs)))
  /\ Forall (fun s => needs_fallback s = false ->
                      anchor s = slugify (section_name s)) secs
  /\ fallback_index = S (List.length (filter needs_fallback secs)).

(** The orders with the times of payment changed by [f]. *)
Definition map_paid_at (f : datetime -> datetime) (d : Db) : Db :=
  mk_db (dining_tables d) (menu_items d)
        (map (fun o => Order.set_paid_at (option_map f (Order.paid_at o)) o)
             (orders d)).

(** The status is one of the pipeline. *)
Definition status_ok (o : Order.t) : Prop := In (Order.status o) STATUS_FLOW.

(** ** A scenario: the seeded restaurant, one order from table T1 *)

Definition noon (n : nat) : datetime :=
  mk_datetime (mk_date 2024 5 17) 12 0 0 (Z.of_nat n).

Definition scenario_start : App :=
  mk_app (seed_data empty_db) (mk_clock noon 0).

(** Staff member 2 orders two of menu item 1 (80.0 each) for table T1. *)
Definition scenario_order_form : Form := [("table_id", "1"); ("item_1", "2")].

Definition scenario_ordered : App :=
  after (staff_new_order (Some 2%nat) POST scenario_order_form scenario_start).

Definition scenario_bogus_form : Form := [("status", "bogus")].

Definition scenario_pay_form : Form :=
  [("status", "paid"); ("payment_method", " cash ")].

Definition scenario_paid : App :=
  after (staff_update_status 1 scenario_pay_form scenario_ordered).





(** ** Users and the access check (lines 16-26, 118-135, 150-156) *)

Module User.
Record t := mk {
  id : nat;
  username : string;
  password_hash : string;
  role : string
}.
End User.

(** The argument of [login_required]: [None], one role name, or a list
    of role names. *)
Inductive Roles :=
| NoRoles
| RoleName (role : string)
| RoleNames (roles : list string).

Definition flash_login_first : Flash :=
  mk_flash "กรุณาเข้าสู่ระบบก่อน" "warning".

(** [if roles:] *)
Definition roles_given (roles : Roles) : bool :=
  match roles with
  | NoRoles => false
  | RoleName r => negb (Text.is_empty r)
  | RoleNames l => match l with [] => false | _ :: _ => true end
  end.

(** [allowed]: the list itself, or the list of the one name. *)
Definition allowed_roles (roles : Roles) : list string :=
  match roles with
  | NoRoles => []
  | RoleName r => [r]
  | RoleNames l => l
  end.

(** [login_required(roles)(view)] called with [g.user]. *)
Definition login_required (roles : Roles) (view : App -> Outcome)
  (g_user : option User.t) (a : App) : Outcome :=
  match g_user with
  | None => mk_outcome (Redirected "login") [flash_login_first] a
  | Some user =>
      if roles_given roles
         && negb (existsb (String.eqb (User.role user)) (allowed_roles roles))
      then mk_outcome (Aborted 403) [] a
      else view a
  end.

(** [index] (lines 150-156) *)
Definition index (g_user : option User.t) (a : App) : Outcome :=
  match g_user with
  | Some user =>
      if String.eqb (User.role user) "admin"
      then mk_outcome (Redirected "admin_dashboard") [] a
      else if String.eqb (User.role user) "staff"
           then mk_outcome (Redirected "staff_dashboard") [] a
           else mk_outcome (Redirected "login") [] a
  | None => mk_outcome (Redirected "login") [] a
  end.

(** The views behind their decorators: the catalogue for "admin", the
    order desk for "staff" and "admin", the table pages for everyone.
    [staff_new_order] records [g.user], whatever the request names. *)
Definition serve (g_user : option User.t) (r : Request) (a : App) : Outcome :=
  match r with
  | AdminMenuNew m f p =>
      login_required (RoleName "admin") (admin_menu_new m f p) g_user a
  | AdminMenuEdit i m f p =>
      login_required (RoleName "admin") (admin_menu_edit i m f p) g_user a
  | AdminMenuDelete i =>
      login_required (RoleName "admin") (admin_menu_delete i) g_user a
  | AdminTables m f =>
      login_required (RoleName "admin") (admin_tables m f) g_user a
  | AdminTableDelete i =>
      login_required (RoleName "admin") (admin_table_delete i) g_user a
  | StaffNewOrder _ m f =>
      login_required (RoleNames ["staff"; "admin"])
        (staff_new_order (option_map User.id g_user) m f) g_user a
  | StaffUpdateStatus i f =>
      login_required (RoleNames ["staff"; "admin"])
        (staff_update_status i f) g_user a
  | StaffAcknowledge i =>
      login_required (RoleNames ["staff"; "admin"])
        (staff_acknowledge i) g_user a
  | TableView c m f => table_view c m f a
  | CustomerCallStaff c i => customer_call_staff c i a
  end.

(** The request is one of the catalogue (the routes under [/admin]). *)
Definition is_admin_request (r : Request) : bool :=
  match r with
  | AdminMenuNew _ _ _ | AdminMenuEdit _ _ _ _ | AdminMenuDelete _
  | AdminTables _ _ | AdminTableDelete _ => true
  | _ => false
  end.

(** The request is one of the order desk (the routes under [/staff]). *)
Definition is_staff_request (r : Request) : bool :=
  match r with
  | StaffNewOrder _ _ _ | StaffUpdateStatus _ _ | StaffAcknowledge _ => true
  | _ => false
  end.

(** ** The order summary of the customer (lines 480-491) *)

(** [l.index(x)], [None] when [x] is not in [l]. *)
Fixpoint list_index (x : string) (l : list string) : option nat :=
  match l with
  | [] => None
  | y :: rest =>
      if String.eqb y x then Some 0%nat
      else option_map S (list_index x rest)
  end.

(** [STATUS_FLOW.index(order.status) if order.status in STATUS_FLOW
    else -1] *)
Definition current_status_index (order : Order.t) : Z :=
  if existsb (String.eqb (Order.status order)) STATUS_FLOW
  then match list_index (Order.status order) STATUS_FLOW with
       | Some i => Z.of_nat i
       | None => -1
       end
  else -1.

(** [customer_order_summary]: the order and the index the page is
    rendered with, [None] for the 404 of a table or order not found. *)
Definition customer_order_summary (code : string) (order_id : nat) (d : Db)
  : option (Order.t * Z) :=
  match table_by_code d (Text.upper code) with
  | None => None
  | Some table =>
      match get_order_of_table d order_id table with
      | None => None
      | Some order => Some (order, current_status_index order)
      end
  end.

(** [latest_order] of the customer view (line 445) *)
Definition latest_order (d : Db) (table : DiningTable.t) : option Order.t :=
  match active_orders d table with
  | [] => None
  | o :: _ => Some o
  end.

(** ** Predicates on text, for the properties below *)

(** Every character of the string passes the test. *)
Fixpoint all_chars (p : ascii -> bool) (s : string) : bool :=
  match s with
  | EmptyString => true
  | String c r => p c && all_chars p r
  end.

(** The characters of a slug: lower-case letters, digits, the
    underscore, the hyphen and the bytes of letters beyond ASCII. *)
Definition slug_char (c : ascii) : bool :=
  Text.is_digit c || Text.is_lower c || Ascii.eqb c "_" || Ascii.eqb c "-"
  || (128 <=? Text.code c)%nat.

Definition not_space (c : ascii) : bool := negb (Text.is_space c).

(** The request as [serve] handles it for the logged-in [user]:
    [staff_new_order] records that user. *)
Definition as_user (user : User.t) (r : Request) : Request :=
  match r with
  | StaffNewOrder _ m f => StaffNewOrder (Some (User.id user)) m f
  | _ => r
  end.

(** ** What the stored orders keep *)

(** [paid_at] is set exactly on paid orders, [payment_method] only on
    paid orders. *)
Definition paid_fields_consistent (o : Order.t) : Prop :=
  (Order.paid_at o <> None <-> Order.status o = "paid")
  /\ (Order.payment_method o <> None -> Order.status o = "paid").

(** The order has lines, each of a positive quantity and pointing back
    to the order, and its total is the sum of their subtotals. *)
Definition lines_consistent (o : Order.t) : Prop :=
  Order.items o <> []
  /\ Forall (fun it => 0 < OrderItem.quantity it
                       /\ OrderItem.order_id it = Order.id o)
            (Order.items o)
  /\ exists ss, Order.subtotals (Order.items o) = Some ss
                /\ Order.total_amount o = Num.sum ss.

(** The table of the order is a stored table. *)
Definition table_exists (d : Db) (o : Order.t) : Prop :=
  exists t, In t (dining_tables d) /\ DiningTable.id t = Order.table_id o.

(** ** Text as the forms store it *)

(** Not empty, and without white space at either end. *)
Definition clean (s : string) : Prop := s <> "" /\ Text.strip s = s.

(** A menu item as the admin form stores it: a name that is clean, a
    stripped description, and a category that is absent or clean. *)
Definition menu_item_clean (m : MenuItem.t) : Prop :=
  clean (MenuItem.name m)
  /\ Text.strip (MenuItem.description m) = MenuItem.description m
  /\ forall c, MenuItem.category m = Some c -> clean c.

(** A table as the admin form stores it. *)
Definition table_clean (t : DiningTable.t) : Prop :=
  clean (DiningTable.name t) /\ clean (DiningTable.code t).

Definition catalogue_clean (d : Db) : Prop :=
  Forall menu_item_clean (menu_items d)
  /\ Forall table_clean (dining_tables d).

(** The payment method of the order, if there is one, is clean. *)
Definition payment_method_clean (o : Order.t) : Prop :=
  forall v, Order.payment_method o = Some v -> clean v.

(** ** What a request does to the tables *)

(** The ways in which the database after a request differs from the
    database before it. *)
Inductive db_step (d d' : Db) : Prop :=
| step_same :
    d' = d -> db_step d d'
| step_menu_add (item : MenuItem.t) :
    MenuItem.id item = next_id (map MenuItem.id (menu_items d)) ->
    menu_item_clean item ->
    d' = mk_db (dining_tables d) (menu_items d ++ [item]) (orders d) ->
    db_step d d'
| step_menu_edit (item : MenuItem.t) :
    menu_item_clean item ->
    d' = store_menu_item item d -> db_step d d'
| step_menu_delete (item_id : nat) :
    d' = mk_db (dining_tables d)
               (filter (fun m => negb (Nat.eqb (MenuItem.id m) item_id))
                       (menu_items d))
               (orders d) ->
    db_step d d'
| step_table_add (t : DiningTable.t) :
    DiningTable.id t = next_id (map DiningTable.id (dining_tables d)) ->
    table_clean t ->
    DiningTable.code t <> "" ->
    Text.upper (DiningTable.code t) = DiningTable.code t ->
    table_by_code d (DiningTable.code t) = None ->
    d' = mk_db (dining_tables d ++ [t]) (menu_items d) (orders d) ->
    db_step d d'
| step_table_delete (t : DiningTable.t) :
    orders_of_table d t = [] ->
    d' = mk_db (filter (fun x => negb (Nat.eqb (DiningTable.id x)
                                               (DiningTable.id t)))
                       (dining_tables d))
               (menu_items d) (orders d) ->
    db_step d d'
| step_order_new (table : DiningTable.t) (order : Order.t)
    (selected : list (MenuItem.t * Z)) :
    In table (dining_tables d) ->
    Order.table_id order = DiningTable.id table ->
    Order.id order = next_id (map Order.id (orders d)) ->
    Order.items order
    = order_items_of (Order.id order)
        (next_id (map OrderItem.id (all_order_items d))) selected ->
    d' = mk_db (dining_tables d) (menu_items d) (orders d ++ [order]) ->
    db_step d d'
| step_order_update (o order : Order.t) :
    In o (orders d) ->
    Order.id order = Order.id o ->
    Order.table_id order = Order.table_id o ->
    Order.items order = Order.items o ->
    Order.total_amount order = Order.total_amount o ->
    (Order.status order = Order.status o
     \/ In (Order.status order) STATUS_FLOW) ->
    d' = store_order order d ->
    db_step d d'.

(** The keys of the tables are what keys should be, and the orders
    point to stored tables. *)
Record db_sound (d : Db) : Prop := mk_db_sound {
  order_ids_unique : NoDup (map Order.id (orders d));
  item_ids_unique : NoDup (map OrderItem.id (all_order_items d));
  menu_ids_unique : NoDup (map MenuItem.id (menu_items d));
  table_ids_unique : NoDup (map DiningTable.id (dining_tables d));
  table_codes_unique : NoDup (map DiningTable.code (dining_tables d));
  table_codes_normal :
    Forall (fun t => DiningTable.code t <> ""
                     /\ Text.upper (DiningTable.code t) = DiningTable.code t)
           (dining_tables d);
  order_tables_exist : Forall (table_exists d) (orders d)
}.

(** What the sales figures read of an order. *)
Definition sales_view (o : Order.t) : string * option datetime * float :=
  (Order.status o, Order.paid_at o, Order.total_amount o).

(** The admin reprices menu item 1 after the order of the scenario. *)
Definition scenario_repriced : App :=
  after (admin_menu_edit 1 POST [("name", "Pad Thai"); ("available", "on")]
           (Some 99%float) scenario_ordered).

(** The admin adds table "T9", then tries the same code in lower case
    and with spaces around it. *)
Definition scenario_table_form : Form := [("name", "Terrace"); ("code", "t9")].

Definition scenario_table_again : Form :=
  [("name", "Garden"); ("code", "  T9 ")].

(** The request is one that places an order. *)
Definition is_ordering_request (r : Request) : bool :=
  match r with
  | StaffNewOrder _ _ _ | TableView _ _ _ => true
  | _ => false
  end.

(** The line was ordered from the menu: a positive quantity of an
    available item of the menu, at the price of the item. *)
Definition line_from_menu (d : Db) (it : OrderItem.t) : Prop :=
  0 < OrderItem.quantity it
  /\ exists m, In m (menu_items d)
               /\ MenuItem.available m = true
               /\ MenuItem.id m = OrderItem.menu_item_id it
               /\ MenuItem.price m = OrderItem.price it.

(** The customer at table T1 asks for item 1 twice over and for an
    item the admin has taken off the menu. *)
Definition scenario_off_menu : App :=
  after (admin_menu_edit 2 POST [("name", "Tom Yum")] (Some 120%float)
           scenario_start).

Definition scenario_off_menu_form : Form :=
  [("item_1", "1"); ("item_2", "3"); ("item_1", "5")].
(** * Properties *)

(** ** The text and number helpers on examples *)

Example slugify_examples :
  slugify "  Main   Dishes! " = "main-dishes"
  /\ slugify "Soup" = "soup"
  /\ slugify "" = "section".
Proof. repeat split. Qed.

Example py_int_examples :
  Text.py_int " 12 " = Some 12
  /\ Text.py_int "-1_000" = Some (-1000)
  /\ Text.py_int "007" = Some 7
  /\ Text.py_int "1__0" = None
  /\ Text.py_int "2.5" = None
  /\ Text.py_int "abc" = None.
Proof. repeat split. Qed.

(** [round(2.675, 2)] is 2.67 and [round(1.005, 2)] is 1.0, the floats
    lying just below the decimals; exact ties go to the even digit. *)
Example round2_examples :
  Num.round2 2.675 = 2.67%float
  /\ Num.round2 1.005 = 1%float
  /\ Num.round2 0.125 = 0.12%float
  /\ Num.round2 0.375 = 0.38%float
  /\ Num.round2 160 = 160%float
  /\ Num.float_of_int 2 = Some 2%float
  /\ Num.float_of_int (10 ^ 400) = None.
Proof. repeat split; vm_compute; reflexivity. Qed.

(** ** Active orders *)

Lemma is_active_spec (o : Order.t) :
  Order.is_active o
  = negb (String.eqb (Order.status o) "paid"
          || String.eqb (Order.status o) "cancelled").
Proof.
  unfold Order.is_active; simpl. now rewrite orb_false_r.
Qed.

(** C8: [is_active] is false exactly when the status is "paid" or
    "cancelled"; it is true for every other status, in particular for
    the pipeline values pending, preparing, served and completed. *)
Theorem is_active_false_iff_paid_or_cancelled (o : Order.t) :
  (Order.is_active o = false
   <-> Order.status o = "paid" \/ Order.status o = "cancelled")
  /\ (Order.is_active o = true
      <-> Order.status o <> "paid" /\ Order.status o <> "cancelled")
  /\ Forall (fun s => forall o', Order.status o' = s ->
                                 Order.is_active o' = true)
            ["pending"; "preparing"; "served"; "completed"].
Proof.
  rewrite is_active_spec.
  destruct (String.eqb_spec (Order.status o) "paid") as [Hp | Hp];
    destruct (String.eqb_spec (Order.status o) "cancelled") as [Hc | Hc];
    simpl.
  1-3: (split; [| split]);
    [ split; auto
    | split; [ discriminate | intros [? ?]; contradiction ]
    | ].
  4: (split; [| split]);
    [ split; [ discriminate | intros [? | ?]; contradiction ]
    | split; auto
    | ].
  all: repeat constructor; intros o' E; rewrite is_active_spec, E;
    reflexivity.
Qed.

(** ** Status changes *)

Lemma in_status_flow_iff (s : string) :
  in_status_flow (Some s) = true <-> In s STATUS_FLOW.
Proof.
  unfold in_status_flow. rewrite existsb_exists. split.
  - intros (x & Hin & E). apply String.eqb_eq in E. now subst.
  - intros Hin. exists s. split; [assumption | apply String.eqb_refl].
Qed.

Lemma get_order_id (d : Db) (order_id : nat) (o : Order.t) :
  get_order d order_id = Some o -> In o (orders d) /\ Order.id o = order_id.
Proof.
  unfold get_order. intros H. apply find_some in H as [Hin E].
  split; [assumption | now apply Nat.eqb_eq].
Qed.

(** Reading back the row that [store_order] wrote. *)
Lemma get_order_store_order (d : Db) (order o : Order.t) :
  get_order d (Order.id order) = Some o ->
  get_order (store_order order d) (Order.id order) = Some order.
Proof.
  unfold get_order, store_order; simpl.
  induction (orders d) as [| x l IH]; simpl; [discriminate |].
  destruct (Nat.eqb (Order.id x) (Order.id order)) eqn:E; simpl.
  - intros _. now rewrite Nat.eqb_refl.
  - rewrite E. exact IH.
Qed.

Lemma set_order_status_id status form order clk :
  Order.id (fst (set_order_status status form order clk)) = Order.id order.
Proof.
  unfold set_order_status; simpl. now destruct (String.eqb status "paid").
Qed.

(** C3: a status outside the pipeline (or no status at all) changes
    nothing: the application after the request is the application
    before it, so the order keeps its status, [updated_at], [paid_at]
    and [payment_method], and the view reports the invalid status. *)
Theorem invalid_status_changes_nothing
  (a : App) (order_id : nat) (form : Form) :
  (forall s, form_get form "status" = Some s -> ~ In s STATUS_FLOW) ->
  after (staff_update_status order_id form a) = a
  /\ forall order, get_order (db a) order_id = Some order ->
       flashes (staff_update_status order_id form a) = [flash_invalid_status]
       /\ response (staff_update_status order_id form a)
          = Redirected "staff_order_detail"
       /\ get_order (db (after (staff_update_status order_id form a)))
                    order_id = Some order.
Proof.
  intros Hbad. unfold staff_update_status.
  destruct (get_order (db a) order_id) as [order |] eqn:Hget; simpl.
  - destruct (form_get form "status") as [s |] eqn:Hs.
    + destruct (in_status_flow (Some s)) eqn:Hflow.
      * apply in_status_flow_iff in Hflow. now elim (Hbad s).
      * simpl. split; [reflexivity |].
        intros o [= <-]. now rewrite Hget.
    + simpl. split; [reflexivity |].
      intros o [= <-]. now rewrite Hget.
  - split; [reflexivity | discriminate].
Qed.

(** C2 (as amended): moving an order to "paid" stamps [paid_at] with the
    clock and stores the supplied payment method with the white space
    around it removed (nil when nothing is left or none was supplied);
    moving it to any other pipeline value clears [paid_at] and
    [payment_method], whatever they held. *)
Theorem status_change_sets_payment_fields
  (a : App) (order_id : nat) (form : Form) (status : string)
  (order : Order.t) :
  get_order (db a) order_id = Some order ->
  form_get form "status" = Some status ->
  In status STATUS_FLOW ->
  exists order',
    get_order (db (after (staff_update_status order_id form a))) order_id
    = Some order'
    /\ Order.status order' = status
    /\ (status = "paid" ->
        Order.paid_at order' = Some (readings (clock a) (S (ticks (clock a))))
        /\ Order.payment_method order' = stored_payment_method form)
    /\ (status <> "paid" ->
        Order.paid_at order' = None /\ Order.payment_method order' = None).
Proof.
  intros Hget Hs Hin.
  destruct (get_order_id _ _ _ Hget) as [_ Hid].
  unfold staff_update_status. rewrite Hget, Hs.
  apply in_status_flow_iff in Hin. rewrite Hin.
  destruct (set_order_status status form order (clock a)) as [order' clk']
    eqn:Hset.
  exists order'. simpl.
  assert (Hid' : Order.id order' = order_id).
  { pose proof (set_order_status_id status form order (clock a)) as H.
    rewrite Hset in H. simpl in H. congruence. }
  split.
  - rewrite <- Hid'. apply get_order_store_order with (o := order).
    now rewrite Hid'.
  - revert Hset. unfold set_order_status; simpl.
    destruct (String.eqb_spec status "paid") as [E | E];
      intros [= <- _]; simpl.
    + repeat split; try reflexivity; try assumption; intros; contradiction.
    + repeat split; try reflexivity; intros; contradiction.
Qed.

Lemma invalid_status_changes_nothing_witness :
  after (staff_update_status 1 scenario_bogus_form scenario_ordered)
  = scenario_ordered
  /\ forall order, get_order (db scenario_ordered) 1 = Some order ->
       flashes (staff_update_status 1 scenario_bogus_form scenario_ordered)
       = [flash_invalid_status]
       /\ response (staff_update_status 1 scenario_bogus_form scenario_ordered)
          = Redirected "staff_order_detail"
       /\ get_order
            (db (after (staff_update_status 1 scenario_bogus_form
                          scenario_ordered))) 1
          = Some order.
Proof.
  apply (invalid_status_changes_nothing scenario_ordered 1 scenario_bogus_form).
  intros s E. vm_compute in E. injection E as <-.
  vm_compute. intuition discriminate.
Defined.

(** C2, as stated, fails on a payment method written with spaces around
    it: " cash " is supplied and is not blank, "cash" is stored. *)
Lemma payment_method_is_stripped :
  exists order',
    get_order (db scenario_paid) 1 = Some order'
    /\ Order.status order' = "paid"
    /\ supplied_payment_method scenario_pay_form = Some " cash "
    /\ Order.payment_method order' = Some "cash"
    /\ Order.payment_method order' <> supplied_payment_method scenario_pay_form.
Proof.
  eexists. split; [vm_compute; reflexivity |].
  repeat split; try reflexivity. vm_compute. discriminate.
Qed.

Lemma status_change_sets_payment_fields_witness :
  exists order',
    get_order (db (after (staff_update_status 1 scenario_pay_form
                            scenario_ordered))) 1
    = Some order'
    /\ Order.status order' = "paid"
    /\ ("paid" = "paid" ->
        Order.paid_at order'
        = Some (readings (clock scenario_ordered)
                         (S (ticks (clock scenario_ordered))))
        /\ Order.payment_method order'
           = stored_payment_method scenario_pay_form)
    /\ ("paid" <> "paid" ->
        Order.paid_at order' = None /\ Order.payment_method order' = None).
Proof.
  destruct (get_order (db scenario_ordered) 1) as [order |] eqn:Hget;
    [| vm_compute in Hget; discriminate].
  apply (status_change_sets_payment_fields scenario_ordered 1
           scenario_pay_form "paid" order).
  - exact Hget.
  - reflexivity.
  - simpl. tauto.
Defined.

(** ** Parsing the submitted quantities *)

Lemma parse_order_items_acc form menu acc :
  fold_left
    (fun selected_items item =>
       let raw_qty := form_get form (item_key item) in
       let qty := parse_qty raw_qty in
       if 0 <? qty then selected_items ++ [(item, qty)] else selected_items)
    menu acc
  = acc ++ map (fun m => (m, item_qty form m))
               (filter (fun m => 0 <? item_qty form m) menu).
Proof.
  revert acc. induction menu as [| m menu IH]; intros acc; simpl.
  - now rewrite app_nil_r.
  - rewrite IH.
    change (parse_qty (form_get form (item_key m))) with (item_qty form m).
    destruct (0 <? item_qty form m); simpl.
    + now rewrite <- app_assoc.
    + reflexivity.
Qed.

(** The loop of [parse_order_items] keeps, in the order of the menu, the
    items whose own field holds a positive quantity. *)
Lemma parse_order_items_filter form menu :
  parse_order_items form menu
  = map (fun m => (m, item_qty form m))
        (filter (fun m => 0 <? item_qty form m) menu).
Proof.
  unfold parse_order_items. now rewrite parse_order_items_acc.
Qed.


Lemma place_order_after (a : App) table created_by selected order a' :
  place_order a table created_by selected = Some (order, a') ->
  orders (db a') = orders (db a) ++ [order].
Proof.
  unfold place_order.
  destruct (Order.recalculate_total _ (clock a)) as [[o clk] |];
    [| discriminate].
  simpl. now intros [= <- <-].
Qed.

(** ** The total of a new order *)










(** ** Rejected submissions *)




(** ** Ordered queries *)

Section OrderByFacts.
Context {A : Type} (leb : A -> A -> bool).
Hypothesis leb_total : forall x y, leb x y = false -> leb y x = true.
Hypothesis leb_trans :
  forall x y z, leb x y = true -> leb y z = true -> leb x z = true.

Lemma insert_sorted_perm (x : A) (l : list A) :
  Permutation (insert_sorted leb x l) (x :: l).
Proof.
  induction l as [| y l IH]; simpl.
  - apply Permutation_refl.
  - destruct (leb x y).
    + apply Permutation_refl.
    + apply perm_trans with (y :: x :: l).
      * now apply perm_skip.
      * apply perm_swap.
Qed.

Lemma order_by_perm (l : list A) : Permutation (order_by leb l) l.
Proof.
  induction l as [| x l IH]; simpl.
  - apply perm_nil.
  - apply perm_trans with (x :: order_by leb l).
    + apply insert_sorted_perm.
    + now apply perm_skip.
Qed.

Lemma insert_sorted_sorted (x : A) (l : list A) :
  StronglySorted (fun a b => leb a b = true) l ->
  StronglySorted (fun a b => leb a b = true) (insert_sorted leb x l).
Proof.
  induction 1 as [| y l Hs IH Hy]; simpl.
  - repeat constructor.
  - destruct (leb x y) eqn:E.
    + constructor; [now constructor |].
      constructor; [assumption |].
      rewrite Forall_forall in Hy |- *. intros z Hz.
      apply leb_trans with y; auto.
    + constructor; [assumption |].
      rewrite Forall_forall in Hy |- *. intros z Hz.
      apply (Permutation_in _ (insert_sorted_perm x l)) in Hz.
      destruct Hz as [<- | Hz]; auto.
Qed.

Lemma order_by_sorted (l : list A) :
  StronglySorted (fun a b => leb a b = true) (order_by leb l).
Proof.
  induction l as [| x l IH]; simpl.
  - constructor.
  - now apply insert_sorted_sorted.
Qed.

End OrderByFacts.



Lemma lex_leb_total (a b : list Z) : lex_leb a b = false -> lex_leb b a = true.
Proof.
  revert b. induction a as [| x a IH]; intros [| y b]; simpl;
    try discriminate; try reflexivity.
  intros H. apply orb_false_iff in H as [Hlt H].
  apply Z.ltb_ge in Hlt.
  destruct (Z.eqb_spec x y) as [-> | Hne]; simpl in H.
  - rewrite Z.eqb_refl, (IH b H). apply orb_true_r.
  - replace (y <? x) with true; [reflexivity |].
    symmetry. apply Z.ltb_lt. lia.
Qed.

Lemma lex_leb_trans (a b c : list Z) :
  lex_leb a b = true -> lex_leb b c = true -> lex_leb a c = true.
Proof.
  revert b c. induction a as [| x a IH]; intros [| y b] [| z c]; simpl;
    try discriminate; try reflexivity.
  intros Hab Hbc.
  apply orb_true_iff in Hab as [Hab | Hab];
    apply orb_true_iff in Hbc as [Hbc | Hbc];
    try apply andb_true_iff in Hab as [Exy Hab];
    try apply andb_true_iff in Hbc as [Eyz Hbc];
    try apply Z.ltb_lt in Hab; try apply Z.ltb_lt in Hbc;
    try apply Z.eqb_eq in Exy; try apply Z.eqb_eq in Eyz; subst.
  - replace (x <? z) with true; [reflexivity |].
    symmetry. apply Z.ltb_lt. lia.
  - apply Z.ltb_lt in Hab. now rewrite Hab.
  - apply Z.ltb_lt in Hbc. now rewrite Hbc.
  - rewrite Z.eqb_refl, (IH b c Hab Hbc). apply orb_true_r.
Qed.

Lemma created_at_desc_total (x y : Order.t) :
  created_at_desc x y = false -> created_at_desc y x = true.
Proof. apply lex_leb_total. Qed.

Lemma created_at_desc_trans (x y z : Order.t) :
  created_at_desc x y = true -> created_at_desc y z = true ->
  created_at_desc x z = true.
Proof.
  unfold created_at_desc, dt_leb. intros Hxy Hyz.
  eapply lex_leb_trans; eassumption.
Qed.

Lemma not_paid_iff (o : Order.t) :
  not_paid o = true <-> Order.status o <> "paid".
Proof.
  unfold not_paid. rewrite negb_true_iff. apply String.eqb_neq.
Qed.



(** ** Menu sections *)

Lemma last_section_snoc (l : list MenuSection) (s : MenuSection) :
  last_section (l ++ [s]) = Some s.
Proof.
  induction l as [| x l IH]; simpl; [reflexivity |].
  rewrite IH. now destruct (l ++ [s]) eqn:E; [destruct l; discriminate |].
Qed.

Lemma append_to_last_snoc (l : list MenuSection) (s : MenuSection)
  (item : MenuItem.t) :
  append_to_last (l ++ [s]) item
  = l ++ [mk_section (section_name s) (anchor s) (section_items s ++ [item])].
Proof.
  induction l as [| x l IH]; simpl; [reflexivity |].
  rewrite IH. now destruct (l ++ [s]) eqn:E; [destruct l; discriminate |].
Qed.

(** One turn of the loop on a list of sections that ends with [s]: the
    item joins [s] when it has the label of [s], and opens a section
    otherwise. *)
Lemma add_to_sections_snoc (l : list MenuSection) (s : MenuSection)
  (fallback_index : nat) (item : MenuItem.t) :
  add_to_sections (l ++ [s], fallback_index) item
  = if String.eqb (section_name s) (category_name item)
    then (l ++ [mk_section (section_name s) (anchor s)
                           (section_items s ++ [item])],
          fallback_index)
    else if String.eqb (slugify (category_name item)) "section"
         then (l ++ [s; mk_section (category_name item)
                                   (fallback_anchor fallback_index) [item]],
               S fallback_index)
         else (l ++ [s; mk_section (category_name item)
                                   (slugify (category_name item)) [item]],
               fallback_index).
Proof.
  unfold add_to_sections. rewrite last_section_snoc.
  destruct (String.eqb (section_name s) (category_name item)); simpl.
  - now rewrite append_to_last_snoc.
  - destruct (String.eqb (slugify (category_name item)) "section");
      rewrite append_to_last_snoc, <- app_assoc; reflexivity.
Qed.

Lemma add_to_sections_nil (fallback_index : nat) (item : MenuItem.t) :
  add_to_sections ([], fallback_index) item
  = if String.eqb (slugify (category_name item)) "section"
    then ([mk_section (category_name item)
                      (fallback_anchor fallback_index) [item]],
          S fallback_index)
    else ([mk_section (category_name item)
                      (slugify (category_name item)) [item]],
          fallback_index).
Proof.
  unfold add_to_sections; simpl.
  now destruct (String.eqb (slugify (category_name item)) "section").
Qed.

Lemma adjacent_differ_snoc (l : list string) (a b : string) :
  adjacent_differ (l ++ [a; b]) <-> adjacent_differ (l ++ [a]) /\ a <> b.
Proof.
  induction l as [| x l IH]; simpl.
  - tauto.
  - destruct l as [| y l]; simpl in *; tauto.
Qed.

Lemma concat_snoc {A : Type} (l : list (list A)) (x : list A) :
  List.concat (l ++ [x]) = List.concat l ++ x.
Proof. rewrite concat_app. simpl. now rewrite app_nil_r. Qed.

Lemma sections_inv_start : sections_inv [] ([], 1%nat).
Proof. simpl. repeat split; constructor. Qed.

Lemma filter_snoc {A : Type} (f : A -> bool) (l : list A) (x : A) :
  filter f (l ++ [x]) = if f x then filter f l ++ [x] else filter f l.
Proof.
  rewrite filter_app. simpl. destruct (f x); [reflexivity | apply app_nil_r].
Qed.

(** A new section after the sections [secs], whose last label differs
    from the label of [item]. *)
Lemma sections_inv_open (done : list MenuItem.t) (secs : list MenuSection)
  (fallback_index : nat) (item : MenuItem.t) :
  sections_inv done (secs, fallback_index) ->
  (forall l s, secs = l ++ [s] -> section_name s <> category_name item) ->
  sections_inv (done ++ [item])
    (if String.eqb (slugify (category_name item)) "section"
     then (secs ++ [mk_section (category_name item)
                               (fallback_anchor fallback_index) [item]],
           S fallback_index)
     else (secs ++ [mk_section (category_name item)
                               (slugify (category_name item)) [item]],
           fallback_index)).
Proof.
  intros (Hitems & Hlabels & Hadj & Hfb & Hslug & Hidx) Hlast.
  assert (Hadj' : forall a, adjacent_differ
                              (map section_name
                                 (secs ++ [mk_section (category_name item) a
                                                      [item]]))).
  { intros a. destruct secs as [| x secs'] using rev_ind; [exact I |].
    rewrite <- app_assoc, map_app. simpl.
    apply adjacent_differ_snoc. split.
    - now rewrite map_app in Hadj.
    - now apply (Hlast secs' x). }
  destruct (String.eqb (slugify (category_name item)) "section") eqn:E;
    unfold sections_inv.
  - assert (Hn : forall a, needs_fallback
                             (mk_section (category_name item) a [item]) = true)
      by (intros a; exact E).
    split; [| split; [| split; [| split; [| split]]]].
    + rewrite map_app. cbn [map]. rewrite concat_snoc, Hitems. reflexivity.
    + apply Forall_app. split; [assumption |].
      repeat constructor. discriminate.
    + apply Hadj'.
    + rewrite filter_snoc, Hn, map_app, length_app, Nat.add_1_r, seq_S,
        map_app, <- Hfb. cbn [map anchor Nat.add]. now rewrite Hidx.
    + apply Forall_app. split; [assumption |].
      repeat constructor. rewrite Hn. discriminate.
    + rewrite filter_snoc, Hn, length_app, Nat.add_1_r. now rewrite Hidx.
  - assert (Hn : forall a, needs_fallback
                             (mk_section (category_name item) a [item]) = false)
      by (intros a; exact E).
    split; [| split; [| split; [| split; [| split]]]].
    + rewrite map_app. cbn [map]. rewrite concat_snoc, Hitems. reflexivity.
    + apply Forall_app. split; [assumption |].
      repeat constructor. discriminate.
    + apply Hadj'.
    + now rewrite filter_snoc, Hn.
    + apply Forall_app. split; [assumption |].
      repeat constructor.
    + now rewrite filter_snoc, Hn.
Qed.

(** An item of the label of the last section [s] joins it. *)
Lemma sections_inv_join (done : list MenuItem.t) (l : list MenuSection)
  (s : MenuSection) (fallback_index : nat) (item : MenuItem.t) :
  sections_inv done (l ++ [s], fallback_index) ->
  section_name s = category_name item ->
  sections_inv (done ++ [item])
    (l ++ [mk_section (section_name s) (anchor s) (section_items s ++ [item])],
     fallback_index).
Proof.
  intros (Hitems & Hlabels & Hadj & Hfb & Hslug & Hidx) Hsame.
  rewrite map_app in Hitems, Hadj. cbn [map] in Hitems, Hadj.
  rewrite concat_snoc in Hitems.
  apply Forall_app in Hlabels as [Hlabels Hs], Hslug as [Hslug Hs'].
  apply Forall_inv in Hs as [_ Hs], Hs'.
  rewrite filter_snoc in Hfb, Hidx.
  assert (Hn : needs_fallback
                 (mk_section (section_name s) (anchor s)
                             (section_items s ++ [item]))
               = needs_fallback s) by reflexivity.
  unfold sections_inv.
  split; [| split; [| split; [| split; [| split]]]].
  - rewrite map_app. cbn [map section_items].
    now rewrite concat_snoc, app_assoc, Hitems.
  - apply Forall_app. split; [assumption |].
    repeat constructor; cbn [section_items section_name].
    + now destruct (section_items s).
    + apply Forall_app. split; [assumption |].
      repeat constructor. now symmetry.
  - rewrite map_app. exact Hadj.
  - rewrite filter_snoc, Hn.
    destruct (needs_fallback s); [| exact Hfb].
    rewrite map_app, length_app in Hfb |- *. exact Hfb.
  - apply Forall_app. split; [assumption |].
    repeat constructor. exact Hs'.
  - rewrite filter_snoc, Hn.
    destruct (needs_fallback s); [| exact Hidx].
    rewrite length_app in Hidx |- *. exact Hidx.
Qed.

Lemma sections_inv_step (done : list MenuItem.t)
  (state : list MenuSection * nat) (item : MenuItem.t) :
  sections_inv done state ->
  sections_inv (done ++ [item]) (add_to_sections state item).
Proof.
  destruct state as [secs fallback_index]. intros Hinv.
  destruct secs as [| s l _] using rev_ind.
  - rewrite add_to_sections_nil.
    apply (sections_inv_open done [] fallback_index item Hinv).
    intros l s E. now destruct l.
  - rewrite add_to_sections_snoc.
    destruct (String.eqb_spec (section_name s) (category_name item))
      as [Hsame | Hdiff].
    + now apply sections_inv_join.
    + change (l ++ [s; ?n]) with (l ++ [s] ++ [n]). rewrite !app_assoc.
      apply (sections_inv_open done (l ++ [s]) fallback_index item Hinv).
      intros l' s' E. apply app_inj_tail in E as [_ <-]. exact Hdiff.
Qed.

(** The invariant holds when the loop ends. *)
Lemma build_sections_inv (menu_items : list MenuItem.t) :
  sections_inv menu_items (build_sections menu_items).
Proof.
  unfold build_sections.
  induction menu_items as [| item l IH] using rev_ind.
  - exact sections_inv_start.
  - rewrite fold_left_app. simpl. now apply sections_inv_step.
Qed.

(** C6: the sections are the runs of neighbouring items with one
    effective label: put end to end they give back the menu in order,
    each section is not empty and holds only items of its label, two
    neighbouring sections never share a label.  An item without a
    category, or with the empty one, goes under the fallback label (and
    the admin form stores a category of white space only as none).
    Items of categories Soup, Soup, Drinks make two sections, [Soup]
    with the first two and [Drinks] with the third; Soup, Drinks, Soup
    make three, as the grouping goes by neighbours and not by label. *)
Theorem menu_sections_are_runs_of_neighbours (menu_items : list MenuItem.t) :
  List.concat (map section_items (menu_sections menu_items)) = menu_items
  /\ Forall (fun s => section_items s <> []
                      /\ Forall (fun item => category_name item
                                             = section_name s)
                                (section_items s))
            (menu_sections menu_items)
  /\ adjacent_differ (map section_name (menu_sections menu_items))
  /\ (forall item,
         MenuItem.category item = None \/ MenuItem.category item = Some "" ->
         category_name item = fallback_label)
  /\ (forall form,
         Text.strip (form_get_or_empty form "category") = "" ->
         form_category form = None)
  /\ (forall a b c,
         MenuItem.category a = Some "Soup" ->
         MenuItem.category b = Some "Soup" ->
         MenuItem.category c = Some "Drinks" ->
         map (fun s => (section_name s, section_items s))
             (menu_sections [a; b; c])
         = [("Soup", [a; b]); ("Drinks", [c])])
  /\ (forall a b c,
         MenuItem.category a = Some "Soup" ->
         MenuItem.category b = Some "Drinks" ->
         MenuItem.category c = Some "Soup" ->
         map (fun s => (section_name s, section_items s))
             (menu_sections [a; b; c])
         = [("Soup", [a]); ("Drinks", [b]); ("Soup", [c])]).
Proof.
  pose proof (build_sections_inv menu_items) as Hinv.
  unfold menu_sections.
  destruct (build_sections menu_items) as [secs fallback_index].
  destruct Hinv as (Hitems & Hlabels & Hadj & _).
  cbn [fst]. repeat split; try assumption.
  - intros item [E | E]; unfold category_name; now rewrite E.
  - intros form E. unfold form_category. now rewrite E.
  - intros [ia na da pa ca va] [ib nb db pb cb vb] [ic nc dc pc cc vc].
    cbn [MenuItem.category]. intros -> -> ->. reflexivity.
  - intros [ia na da pa ca va] [ib nb db pb cb vb] [ic nc dc pc cc vc].
    cbn [MenuItem.category]. intros -> -> ->. reflexivity.
Qed.

(** ** Section anchors *)

Lemma str_of_nat_inj (n m : nat) :
  Text.str_of_nat n = Text.str_of_nat m -> n = m.
Proof.
  unfold Text.str_of_nat. intros H.
  apply DecimalNat.Unsigned.to_uint_inj.
  apply (f_equal NilEmpty.uint_of_string) in H.
  rewrite !NilEmpty.usu in H. now injection H.
Qed.

Lemma fallback_anchor_inj : Finite.Injective fallback_anchor.
Proof.
  intros n m H. unfold fallback_anchor in H. simpl in H.
  injection H as H. now apply str_of_nat_inj.
Qed.

Lemma fallback_anchor_not_plain (n : nat) : fallback_anchor n <> "section".
Proof.
  unfold fallback_anchor. simpl.
  destruct (Text.str_of_nat n); discriminate.
Qed.

(** C10: no section is anchored at the plain "section".  The sections
    whose label slugs to "section" (the label "Section" itself, labels
    made of symbols or of white space only) carry "section-1",
    "section-2", ... in the order of the page, so that these anchors
    differ from one another; every other section carries its slug. *)
Theorem no_anchor_is_plain_section (menu_items : list MenuItem.t) :
  Forall (fun s => anchor s <> "section") (menu_sections menu_items)
  /\ map anchor (filter needs_fallback (menu_sections menu_items))
     = map fallback_anchor
           (seq 1 (List.length
                     (filter needs_fallback (menu_sections menu_items))))
  /\ NoDup (map anchor (filter needs_fallback (menu_sections menu_items)))
  /\ Forall (fun s => needs_fallback s = false ->
                      anchor s = slugify (section_name s))
            (menu_sections menu_items)
  /\ slugify "Section" = "section"
  /\ slugify "!?" = "section"
  /\ slugify "   " = "section"
  /\ (forall item,
         MenuItem.category item = Some "Section" ->
         map anchor (menu_sections [item]) = ["section-1"])
  /\ (forall a b,
         MenuItem.category a = Some "Section" ->
         MenuItem.category b = Some "!?" ->
         map anchor (menu_sections [a; b]) = ["section-1"; "section-2"]).
Proof.
  pose proof (build_sections_inv menu_items) as Hinv.
  unfold menu_sections.
  destruct (build_sections menu_items) as [secs fallback_index].
  destruct Hinv as (_ & _ & _ & Hfb & Hslug & _).
  cbn [fst]. repeat split; try assumption; try reflexivity.
  - rewrite Forall_forall in Hslug |- *. intros s Hs.
    destruct (needs_fallback s) eqn:E.
    + assert (Hin : In (anchor s) (map anchor (filter needs_fallback secs))).
      { apply in_map, filter_In. now split. }
      rewrite Hfb in Hin. apply in_map_iff in Hin as (n & <- & _).
      apply fallback_anchor_not_plain.
    + rewrite (Hslug s Hs E). unfold needs_fallback in E.
      now apply String.eqb_neq.
  - rewrite Hfb. apply Finite.Injective_map_NoDup.
    + exact fallback_anchor_inj.
    + apply seq_NoDup.
  - intros [i n d p c v]. cbn [MenuItem.category]. intros ->. reflexivity.
  - intros [ia na da pa ca va] [ib nb db pb cb vb].
    cbn [MenuItem.category]. intros -> ->. reflexivity.
Qed.

(** ** Sales *)

Lemma sum_total_amount_sum (rows : list Order.t) :
  sum_total_amount rows = Num.sum (map Order.total_amount rows).
Proof. now destruct rows. Qed.

Lemma date_eqb_eq (x y : date) : date_eqb x y = true <-> x = y.
Proof.
  unfold date_eqb. rewrite !andb_true_iff, !Z.eqb_eq.
  destruct x, y; simpl. split.
  - intros [[-> ->] ->]. reflexivity.
  - intros [= -> -> ->]. auto.
Qed.

Lemma paid_on_iff (today : date) (o : Order.t) :
  paid_on today o = true
  <-> Order.status o = "paid"
      /\ exists t, Order.paid_at o = Some t /\ dt_date t = today.
Proof.
  unfold paid_on, is_paid. rewrite andb_true_iff, String.eqb_eq.
  destruct (Order.paid_at o) as [t |].
  - rewrite date_eqb_eq. split.
    + intros [Hs Hd]. split; [assumption | now exists t].
    + intros [Hs (t' & [= <-] & Hd)]. now split.
  - split.
    + intros [_ H]. discriminate.
    + intros [_ (t & H & _)]. discriminate.
Qed.

(** C7: the total sales are the sum of [total_amount] over the orders
    of status "paid" and nothing else (0 when there is none, and the
    unpaid orders play no part); today's sales are that sum over the
    paid orders whose [paid_at] has the date of today, whatever its
    time of day: moving the times of payment within their days changes
    nothing.  The dashboard shows both, today being the date of the
    clock. *)
Theorem sales_sum_the_paid_orders (d : Db) (today : date) :
  total_sales d
  = Num.sum (map Order.total_amount
               (filter (fun o => String.eqb (Order.status o) "paid")
                       (orders d)))
  /\ ((forall o, In o (orders d) -> Order.status o <> "paid") ->
      total_sales d = 0%float)
  /\ (forall d', filter is_paid (orders d') = filter is_paid (orders d) ->
                 total_sales d' = total_sales d)
  /\ today_sales today d
     = Num.sum (map Order.total_amount (filter (paid_on today) (orders d)))
  /\ (forall o, paid_on today o = true
                <-> Order.status o = "paid"
                    /\ exists t, Order.paid_at o = Some t
                                 /\ dt_date t = today)
  /\ (forall f, (forall t, dt_date (f t) = dt_date t) ->
                today_sales today (map_paid_at f d) = today_sales today d)
  /\ (forall clk,
         dash_total_sales (fst (admin_dashboard (mk_app d clk)))
         = total_sales d
         /\ dash_today_sales (fst (admin_dashboard (mk_app d clk)))
            = today_sales (dt_date (readings clk (ticks clk))) d).
Proof.
  split; [apply sum_total_amount_sum |].
  split.
  { intros Hnone. unfold total_sales.
    replace (filter is_paid (orders d)) with (@nil Order.t); [reflexivity |].
    symmetry. induction (orders d) as [| o l IH]; [reflexivity |].
    simpl. unfold is_paid at 1.
    destruct (String.eqb_spec (Order.status o) "paid") as [E | _].
    - now elim (Hnone o (or_introl eq_refl)).
    - apply IH. intros o' Ho'. apply Hnone. now right. }
  split; [intros d' E; unfold total_sales; now rewrite E |].
  split; [apply sum_total_amount_sum |].
  split; [apply paid_on_iff |].
  split; [| intros clk; split; reflexivity].
  intros f Hf. unfold today_sales. rewrite !sum_total_amount_sum. f_equal.
  unfold map_paid_at; simpl.
  induction (orders d) as [| o l IH]; [reflexivity |].
  simpl.
  assert (E : paid_on today
                (Order.set_paid_at (option_map f (Order.paid_at o)) o)
              = paid_on today o).
  { unfold paid_on, is_paid; simpl.
    destruct (Order.paid_at o) as [t |]; simpl; [now rewrite Hf | reflexivity]. }
  rewrite E. destruct (paid_on today o); simpl; now rewrite IH.
Qed.

Lemma sales_sum_the_paid_orders_witness :
  total_sales (db scenario_paid) = 160%float
  /\ today_sales (mk_date 2024 5 17) (db scenario_paid) = 160%float
  /\ today_sales (mk_date 2024 5 18) (db scenario_paid) = 0%float
  /\ total_sales (db scenario_ordered) = 0%float.
Proof.
  destruct (sales_sum_the_paid_orders (db scenario_paid) (mk_date 2024 5 17))
    as (Htotal & _ & _ & Htoday & _).
  destruct (sales_sum_the_paid_orders (db scenario_paid) (mk_date 2024 5 18))
    as (_ & _ & _ & Hnext & _).
  destruct (sales_sum_the_paid_orders (db scenario_ordered)
              (mk_date 2024 5 17)) as (_ & Hnone & _).
  rewrite Htotal, Htoday, Hnext.
  do 3 (split; [vm_compute; reflexivity |]).
  apply Hnone. intros o Ho. vm_compute in Ho.
  destruct Ho as [<- | []]. vm_compute. discriminate.
Defined.

(** ** The statuses an order can have *)

Lemma place_order_pending a table created_by selected order a' :
  place_order a table created_by selected = Some (order, a') ->
  Order.status order = "pending".
Proof.
  unfold place_order, Order.recalculate_total. cbn [Order.items].
  destruct (Order.subtotals _); [| discriminate].
  cbn. now intros [= <- _].
Qed.

Lemma pending_ok (o : Order.t) : Order.status o = "pending" -> status_ok o.
Proof. unfold status_ok. intros ->. simpl. auto. Qed.

Lemma store_order_ok (order : Order.t) (d : Db) :
  status_ok order ->
  Forall status_ok (orders d) ->
  Forall status_ok (orders (store_order order d)).
Proof.
  intros Ho Hd. unfold store_order; simpl.
  induction Hd as [| x l Hx _ IH]; simpl; constructor; [| assumption].
  now destruct (Nat.eqb (Order.id x) (Order.id order)).
Qed.

Lemma get_order_ok (d : Db) (order_id : nat) (o : Order.t) :
  Forall status_ok (orders d) -> get_order d order_id = Some o -> status_ok o.
Proof.
  intros Hd Hget. apply get_order_id in Hget as [Hin _].
  rewrite Forall_forall in Hd. now apply Hd.
Qed.

Lemma set_order_status_status status form order clk :
  Order.status (fst (set_order_status status form order clk)) = status.
Proof.
  unfold set_order_status; simpl. now destruct (String.eqb status "paid").
Qed.

Lemma ordering_ok (a : App) table created_by selected (fl : Flash)
  (r r' : Response) :
  Forall status_ok (orders (db a)) ->
  Forall status_ok
    (orders (db (after
       match place_order a table created_by selected with
       | None => mk_outcome r [] a
       | Some (_, a') => mk_outcome r' [fl] a'
       end))).
Proof.
  intros Ha.
  destruct (place_order a table created_by selected) as [[order a'] |]
    eqn:Hplace; simpl; [| assumption].
  rewrite (place_order_after _ _ _ _ _ _ Hplace).
  apply Forall_app. split; [assumption |].
  constructor; [| constructor].
  eapply pending_ok, place_order_pending; eassumption.
Qed.

(** Every request keeps the statuses within the pipeline. *)
Lemma handle_status_ok (r : Request) (a : App) :
  Forall status_ok (orders (db a)) ->
  Forall status_ok (orders (db (after (handle r a)))).
Proof.
  intros Ha. destruct r; simpl.
  - unfold admin_menu_new.
    destruct method; [assumption |].
    destruct price_value; [| assumption].
    now destruct (Text.is_empty _).
  - unfold admin_menu_edit.
    destruct (get_menu_item (db a) item_id); [| assumption].
    destruct method; [assumption |].
    destruct price_value; [| assumption].
    now destruct (Text.is_empty _).
  - unfold admin_menu_delete.
    now destruct (get_menu_item (db a) item_id).
  - unfold admin_tables.
    destruct method; [assumption |].
    destruct (Text.is_empty _ || Text.is_empty _); [assumption |].
    now destruct (table_by_code _ _).
  - unfold admin_table_delete.
    destruct (get_table (db a) table_id); [| assumption].
    now destruct (orders_of_table _ _).
  - unfold staff_new_order.
    destruct method; [assumption |].
    destruct (get_table_by_text _ _); [| assumption].
    destruct (parse_order_items _ _); [assumption |].
    now apply ordering_ok.
  - unfold staff_update_status.
    destruct (get_order (db a) order_id) as [order |] eqn:Hget;
      [| assumption].
    destruct (form_get form "status") as [status |]; [| assumption].
    destruct (in_status_flow (Some status)) eqn:Hflow; [| assumption].
    pose proof (set_order_status_status status form order (clock a)) as Hst.
    destruct (set_order_status status form order (clock a)) as [order' clk].
    simpl in *. apply store_order_ok; [| assumption].
    unfold status_ok. rewrite Hst. now apply in_status_flow_iff.
  - unfold staff_acknowledge.
    destruct (get_order (db a) order_id) as [order |] eqn:Hget;
      [| assumption].
    unfold utcnow. cbn [after db]. apply store_order_ok; [| assumption].
    change (status_ok order). exact (get_order_ok _ _ _ Ha Hget).
  - unfold table_view.
    destruct (table_by_code _ _); [| assumption].
    destruct method; [assumption |].
    destruct (parse_order_items _ _); [assumption |].
    now apply ordering_ok.
  - unfold customer_call_staff.
    destruct (table_by_code _ _) as [table |]; [| assumption].
    destruct (get_order_of_table (db a) order_id table) as [order |] eqn:Hget;
      [| assumption].
    unfold utcnow. cbn [after db]. apply store_order_ok; [| assumption].
    unfold get_order_of_table in Hget. apply find_some in Hget as [Hin _].
    rewrite Forall_forall in Ha. change (status_ok order). now apply Ha.
Qed.

Lemma reachable_status_ok (a : App) :
  reachable a -> Forall status_ok (orders (db a)).
Proof.
  induction 1 as [clk | a clk _ IH | r a _ IH].
  - constructor.
  - exact IH.
  - now apply handle_status_ok.
Qed.

(** C9: in every application that can arise, each order has one of the
    five pipeline statuses; "cancelled" is not among them, and the
    order is active exactly when it is not paid.  (An order is stored
    with status "pending", and [staff_update_status] stores a status
    only after finding it in [STATUS_FLOW].) *)
Theorem reachable_orders_stay_in_pipeline (a : App) :
  reachable a ->
  Forall (fun o => In (Order.status o) STATUS_FLOW
                   /\ Order.status o <> "cancelled"
                   /\ Order.is_active o
                      = negb (String.eqb (Order.status o) "paid"))
         (orders (db a)).
Proof.
  intros Hreach. apply reachable_status_ok in Hreach.
  eapply Forall_impl; [| exact Hreach].
  intros o Ho. split; [exact Ho |].
  rewrite is_active_spec. unfold status_ok in Ho. simpl in Ho.
  destruct Ho as [<- | [<- | [<- | [<- | [<- | []]]]]];
    split; (discriminate || reflexivity).
Qed.

Lemma reachable_orders_stay_in_pipeline_witness :
  Forall (fun o => In (Order.status o) STATUS_FLOW
                   /\ Order.status o <> "cancelled"
                   /\ Order.is_active o
                      = negb (String.eqb (Order.status o) "paid"))
         (orders (db scenario_paid)).
Proof.
  apply (reachable_orders_stay_in_pipeline scenario_paid).
  apply (reachable_handle (StaffUpdateStatus 1 scenario_pay_form)).
  apply (reachable_handle
           (StaffNewOrder (Some 2%nat) POST scenario_order_form)).
  apply reachable_start.
Defined.

(** * Further properties of the code *)

(** ** Text *)

Lemma lstrip_head (s : string) :
  match Text.lstrip s with
  | EmptyString => True
  | String c _ => Text.is_space c = false
  end.
Proof.
  induction s as [| c r IH]; simpl; [exact I |].
  destruct (Text.is_space c) eqn:E; [exact IH | exact E].
Qed.

Lemma rstrip_idem (s : string) : Text.rstrip (Text.rstrip s) = Text.rstrip s.
Proof.
  induction s as [| c r IH]; simpl; [reflexivity |].
  destruct (Text.is_empty (Text.rstrip r) && Text.is_space c) eqn:E;
    [reflexivity |].
  simpl. now rewrite IH, E.
Qed.

Lemma rstrip_head (c : ascii) (r : string) :
  Text.is_space c = false ->
  Text.rstrip (String c r) = String c (Text.rstrip r).
Proof. intros E. simpl. now rewrite E, andb_false_r. Qed.

Lemma rstrip_last (s r : string) (c : ascii) :
  Text.rstrip s = (r ++ String c "")%string -> Text.is_space c = false.
Proof.
  revert r. induction s as [| x s IH]; intros r; simpl.
  - destruct r; discriminate.
  - destruct (Text.rstrip s) as [| y t] eqn:Es; simpl.
    + destruct (Text.is_space x) eqn:Ex; [destruct r; discriminate |].
      destruct r as [| z r]; simpl; intros H; inversion H; subst;
        [assumption | destruct r; discriminate].
    + destruct r as [| z r]; simpl; intros H; inversion H; subst.
      now apply (IH r).
Qed.

Lemma lstrip_fixed (s : string) :
  match s with
  | EmptyString => True
  | String c _ => Text.is_space c = false
  end ->
  Text.lstrip s = s.
Proof. destruct s as [| c r]; simpl; [reflexivity | now intros ->]. Qed.

(** X1: stripping twice is stripping once, and what [strip] returns
    neither starts nor ends with white space. *)
Theorem strip_is_idempotent (s : string) :
  Text.strip (Text.strip s) = Text.strip s
  /\ (forall c r, Text.strip s = String c r -> Text.is_space c = false)
  /\ (forall r c, Text.strip s = (r ++ String c "")%string ->
                  Text.is_space c = false).
Proof.
  unfold Text.strip. pose proof (lstrip_head s) as Hhead.
  destruct (Text.lstrip s) as [| c r] eqn:El.
  - simpl. repeat split; try discriminate.
    intros r c H. destruct r; discriminate.
  - rewrite (rstrip_head c r Hhead). split; [| split].
    + rewrite lstrip_fixed by exact Hhead.
      rewrite <- (rstrip_head c r Hhead). apply rstrip_idem.
    + now intros c' r' [= <- _].
    + intros r' c' H. rewrite <- (rstrip_head c r Hhead) in H.
      eapply rstrip_last; eassumption.
Qed.

(** ** Slugs *)

Ltac each_char c :=
  destruct c as [[] [] [] [] [] [] [] []]; try reflexivity; try discriminate.

Lemma lower_char_not_upper (c : ascii) :
  Text.is_upper (Text.lower_char c) = false.
Proof. each_char c. Qed.

Lemma slug_char_of_kept (c : ascii) :
  (Text.is_word c || Ascii.eqb c "-") && not_space c
  && negb (Text.is_upper c) = true ->
  slug_char c = true.
Proof. each_char c. Qed.

Lemma slug_char_kept (c : ascii) :
  slug_char c = true ->
  Text.is_space c = false /\ Text.is_upper c = false
  /\ Text.is_word c || Ascii.eqb c "-" = true.
Proof. each_char c; repeat split. Qed.

Lemma all_chars_impl (p q : ascii -> bool) (s : string) :
  (forall c, p c = true -> q c = true) ->
  all_chars p s = true -> all_chars q s = true.
Proof.
  intros Hpq. induction s as [| c r IH]; simpl; [reflexivity |].
  rewrite !andb_true_iff. intros [Hc Hr]. split; auto.
Qed.

Lemma lower_no_upper (s : string) :
  all_chars (fun c => negb (Text.is_upper c)) (Text.lower s) = true.
Proof.
  induction s as [| c r IH]; simpl; [reflexivity |].
  now rewrite lower_char_not_upper, IH.
Qed.

Lemma sub_spaces_chars (b : bool) (s : string) :
  all_chars (fun c => negb (Text.is_upper c)) s = true ->
  all_chars (fun c => not_space c && negb (Text.is_upper c))
            (Text.sub_spaces b s) = true.
Proof.
  revert b. induction s as [| c r IH]; intros b; simpl; [reflexivity |].
  rewrite andb_true_iff. intros [Hc Hr].
  destruct (Text.is_space c) eqn:Es.
  - destruct b; simpl; now rewrite ?IH.
  - simpl. unfold not_space at 1. now rewrite Es, Hc, IH.
Qed.

Lemma sub_nonword_chars (q : ascii -> bool) (s : string) :
  all_chars q s = true ->
  all_chars (fun c => (Text.is_word c || Ascii.eqb c "-") && q c)
            (Text.sub_nonword s) = true.
Proof.
  induction s as [| c r IH]; simpl; [reflexivity |].
  rewrite andb_true_iff. intros [Hc Hr].
  destruct (Text.is_word c || Ascii.eqb c "-") eqn:Ew; simpl.
  - now rewrite Ew, Hc, IH.
  - now apply IH.
Qed.

Lemma slug_chars_fixed (s : string) :
  all_chars slug_char s = true ->
  Text.lstrip s = s /\ Text.rstrip s = s /\ Text.lower s = s
  /\ (forall b, Text.sub_spaces b s = s) /\ Text.sub_nonword s = s.
Proof.
  induction s as [| c r IH]; simpl; [repeat split |].
  rewrite andb_true_iff. intros [Hc Hr].
  destruct (slug_char_kept c Hc) as (Hs & Hu & Hw).
  destruct (IH Hr) as (_ & Hrs & Hl & Hsp & Hnw).
  rewrite Hs, Hw, Hrs, Hl, Hnw, andb_false_r.
  unfold Text.lower_char. rewrite Hu.
  repeat split. intros b. now rewrite Hsp.
Qed.

Lemma slugify_chars (value : string) :
  slugify value <> ""
  /\ all_chars slug_char (slugify value) = true.
Proof.
  unfold slugify.
  set (v := Text.sub_nonword
              (Text.sub_spaces false (Text.lower (Text.strip value)))).
  assert (Hv : all_chars slug_char v = true).
  { unfold v.
    eapply all_chars_impl;
      [| apply sub_nonword_chars, sub_spaces_chars, lower_no_upper].
    intros c H. apply slug_char_of_kept. simpl in H.
    now rewrite andb_assoc in H. }
  destruct v as [| c r]; simpl.
  - split; [discriminate | reflexivity].
  - split; [discriminate | exact Hv].
Qed.

(** X2: a slug is never empty and is made of lower-case letters,
    digits, underscores, hyphens and bytes beyond ASCII only: no white
    space, no capital, no other punctuation. *)
Theorem slugify_is_a_slug (value : string) :
  slugify value <> ""
  /\ all_chars slug_char (slugify value) = true
  /\ all_chars not_space (slugify value) = true
  /\ all_chars (fun c => negb (Text.is_upper c)) (slugify value) = true.
Proof.
  destruct (slugify_chars value) as [Hne Hchars].
  repeat split; try assumption.
  - eapply all_chars_impl; [| exact Hchars].
    intros c Hc. unfold not_space.
    now destruct (slug_char_kept c Hc) as (-> & _).
  - eapply all_chars_impl; [| exact Hchars].
    intros c Hc. now destruct (slug_char_kept c Hc) as (_ & -> & _).
Qed.

(** X3: [slugify] leaves a slug as it is. *)
Theorem slugify_is_idempotent (value : string) :
  slugify (slugify value) = slugify value.
Proof.
  destruct (slugify_chars value) as [Hne Hchars].
  destruct (slug_chars_fixed _ Hchars) as (Hl & Hr & Hlow & Hsp & Hnw).
  unfold slugify at 1. unfold Text.strip.
  rewrite Hl, Hr, Hlow, Hsp, Hnw.
  now destruct (slugify value).
Qed.

(** ** Quantities and their fields *)

Lemma item_key_inj (a b : MenuItem.t) :
  item_key a = item_key b -> MenuItem.id a = MenuItem.id b.
Proof.
  unfold item_key. simpl. intros H. injection H as H.
  now apply str_of_nat_inj.
Qed.

(** X4: menu items with different identifiers read different fields of
    the form: a value submitted for one item leaves the quantity read
    for the other as it was. *)
Theorem quantities_do_not_interfere (form : Form) (a b : MenuItem.t)
  (v : string) :
  MenuItem.id a <> MenuItem.id b ->
  item_key a <> item_key b
  /\ item_qty ((item_key a, v) :: form) b = item_qty form b
  /\ item_qty ((item_key a, v) :: form) a = parse_qty (Some v).
Proof.
  intros Hid.
  assert (Hkey : item_key a <> item_key b)
    by (intros H; now apply Hid, item_key_inj).
  repeat split; [assumption | |]; unfold item_qty; cbn [form_get].
  - apply String.eqb_neq in Hkey. now rewrite Hkey.
  - now rewrite String.eqb_refl.
Qed.

Lemma quantities_do_not_interfere_witness :
  item_key (MenuItem.mk 1 "a" "" 1 None true)
  <> item_key (MenuItem.mk 12 "b" "" 1 None true)
  /\ item_qty [(item_key (MenuItem.mk 1 "a" "" 1 None true), "3");
               ("item_12", "5")]
              (MenuItem.mk 12 "b" "" 1 None true)
     = item_qty [("item_12", "5")] (MenuItem.mk 12 "b" "" 1 None true)
  /\ item_qty [(item_key (MenuItem.mk 1 "a" "" 1 None true), "3");
               ("item_12", "5")]
              (MenuItem.mk 1 "a" "" 1 None true)
     = parse_qty (Some "3").
Proof.
  apply (quantities_do_not_interfere [("item_12", "5")]
           (MenuItem.mk 1 "a" "" 1 None true)
           (MenuItem.mk 12 "b" "" 1 None true) "3").
  simpl. discriminate.
Defined.







(** ** Who may do what *)

(** X6: the routes under [/admin] and [/staff] do nothing for a visitor
    who is not logged in but send them to the login page; a user who is
    not "admin" is refused (403) on every catalogue route, a user who is
    neither "staff" nor "admin" on every order desk route, and a
    refused request changes nothing.  An admin passes everywhere, staff
    pass on the order desk, and the table pages are open to all. *)
Theorem serve_checks_roles (g_user : option User.t) (r : Request) (a : App) :
  (is_admin_request r || is_staff_request r = true -> g_user = None ->
   serve g_user r a = mk_outcome (Redirected "login") [flash_login_first] a)
  /\ (is_admin_request r = true ->
      forall user, g_user = Some user -> User.role user <> "admin" ->
                   serve g_user r a = mk_outcome (Aborted 403) [] a)
  /\ (is_staff_request r = true ->
      forall user, g_user = Some user ->
                   User.role user <> "staff" -> User.role user <> "admin" ->
                   serve g_user r a = mk_outcome (Aborted 403) [] a)
  /\ (forall user, g_user = Some user ->
                   User.role user = "admin"
                   \/ (User.role user = "staff" /\ is_admin_request r = false) ->
                   serve g_user r a = handle (as_user user r) a)
  /\ (is_admin_request r || is_staff_request r = false ->
      serve g_user r a = handle r a).
Proof.
  split; [| split; [| split; [| split]]].
  - intros Hr ->. destruct r; try discriminate; reflexivity.
  - intros Hr user -> Hrole. apply String.eqb_neq in Hrole.
    destruct r; try discriminate; unfold serve, login_required; simpl;
      now rewrite Hrole.
  - intros Hr user -> Hstaff Hadmin.
    apply String.eqb_neq in Hstaff, Hadmin.
    destruct r; try discriminate; unfold serve, login_required; simpl;
      now rewrite Hstaff, Hadmin.
  - intros user -> [Hadmin | [Hstaff Hr]].
    + destruct r; unfold serve, login_required;
        cbn [roles_given allowed_roles existsb]; rewrite ?Hadmin;
        reflexivity.
    + destruct r; try discriminate; unfold serve, login_required;
        cbn [roles_given allowed_roles existsb]; rewrite ?Hstaff;
        reflexivity.
  - intros Hr. destruct r; try discriminate; reflexivity.
Qed.

(** ** What every request keeps true of the orders *)

Lemma parse_order_items_positive (form : Form) (menu : list MenuItem.t) :
  Forall (fun sel => 0 < snd sel /\ In (fst sel) menu)
         (parse_order_items form menu).
Proof.
  rewrite parse_order_items_filter, Forall_forall.
  intros sel Hin. apply in_map_iff in Hin as (m & <- & Hm).
  apply filter_In in Hm as [Hm Hpos]. simpl. split; [| assumption].
  now apply Z.ltb_lt.
Qed.

Lemma order_items_of_forall (order_id next : nat)
  (selected : list (MenuItem.t * Z)) :
  Forall (fun sel => 0 < snd sel) selected ->
  Forall (fun it => 0 < OrderItem.quantity it
                    /\ OrderItem.order_id it = order_id)
         (order_items_of order_id next selected).
Proof.
  intros H. revert next.
  induction H as [| [m q] rest Hq _ IH]; intros next; simpl; constructor.
  - now split.
  - apply IH.
Qed.

(** What [place_order] stores. *)
Lemma place_order_stores (a : App) table created_by selected order a' :
  place_order a table created_by selected = Some (order, a') ->
  Order.id order = next_id (map Order.id (orders (db a)))
  /\ Order.items order
     = order_items_of (Order.id order)
         (next_id (map OrderItem.id (all_order_items (db a)))) selected
  /\ Order.table_id order = DiningTable.id table
  /\ Order.status order = "pending"
  /\ Order.paid_at order = None
  /\ Order.payment_method order = None
  /\ Order.requested_assistance order = false
  /\ Order.created_by_id order = created_by
  /\ (exists ss, Order.subtotals (Order.items order) = Some ss
                 /\ Order.total_amount order = Num.sum ss)
  /\ dining_tables (db a') = dining_tables (db a)
  /\ menu_items (db a') = menu_items (db a)
  /\ orders (db a') = orders (db a) ++ [order].
Proof.
  unfold place_order, Order.recalculate_total. cbn [Order.items].
  destruct (Order.subtotals _) as [ss |] eqn:Hsub; [| discriminate].
  cbn. intros [= <- <-]. cbn.
  repeat split. exists ss. now split.
Qed.

Lemma store_order_forall (P : Order.t -> Prop) (order : Order.t) (d : Db) :
  P order -> Forall P (orders d) -> Forall P (orders (store_order order d)).
Proof.
  intros Ho Hd. unfold store_order; cbn [orders].
  induction Hd as [| x l Hx _ IH]; cbn [map]; constructor; [| assumption].
  now destruct (Nat.eqb (Order.id x) (Order.id order)).
Qed.

Section OrderLocal.
Variable P : Order.t -> Prop.
Hypothesis P_new :
  forall a table created_by selected order a',
    selected <> [] ->
    Forall (fun sel => 0 < snd sel) selected ->
    place_order a table created_by selected = Some (order, a') ->
    P order.
Hypothesis P_status :
  forall status form o clk,
    In status STATUS_FLOW -> P o ->
    P (fst (set_order_status status form o clk)).
Hypothesis P_assistance :
  forall flag now o,
    P o ->
    P (Order.set_updated_at now (Order.set_requested_assistance flag o)).

Lemma ordering_keeps (a : App) table created_by form menu (fl : Flash)
  (r r' : Response) sel rest :
  parse_order_items form menu = sel :: rest ->
  Forall P (orders (db a)) ->
  Forall P
    (orders (db (after
       match place_order a table created_by (sel :: rest) with
       | None => mk_outcome r [] a
       | Some (_, a') => mk_outcome r' [fl] a'
       end))).
Proof.
  intros Hsel Ha.
  destruct (place_order a table created_by (sel :: rest)) as [[order a'] |]
    eqn:Hplace; cbn [after]; [| assumption].
  rewrite (place_order_after _ _ _ _ _ _ Hplace).
  apply Forall_app. split; [assumption |].
  constructor; [| constructor].
  apply (P_new a table created_by (sel :: rest) order a');
    [discriminate | | assumption].
  rewrite <- Hsel.
  eapply Forall_impl; [| apply parse_order_items_positive].
  now intros x [Hx _].
Qed.

Lemma handle_keeps (r : Request) (a : App) :
  Forall P (orders (db a)) -> Forall P (orders (db (after (handle r a)))).
Proof.
  intros Ha. destruct r; cbn [handle].
  - unfold admin_menu_new.
    destruct method; [assumption |].
    destruct price_value; [| assumption].
    now destruct (Text.is_empty _).
  - unfold admin_menu_edit.
    destruct (get_menu_item (db a) item_id); [| assumption].
    destruct method; [assumption |].
    destruct price_value; [| assumption].
    now destruct (Text.is_empty _).
  - unfold admin_menu_delete.
    now destruct (get_menu_item (db a) item_id).
  - unfold admin_tables.
    destruct method; [assumption |].
    destruct (Text.is_empty _ || Text.is_empty _); [assumption |].
    now destruct (table_by_code _ _).
  - unfold admin_table_delete.
    destruct (get_table (db a) table_id); [| assumption].
    now destruct (orders_of_table _ _).
  - unfold staff_new_order.
    destruct method; [assumption |].
    destruct (get_table_by_text _ _); [| assumption].
    destruct (parse_order_items _ _) eqn:Hsel; [assumption |].
    eapply ordering_keeps; eassumption.
  - unfold staff_update_status.
    destruct (get_order (db a) order_id) as [order |] eqn:Hget;
      [| assumption].
    destruct (form_get form "status") as [status |]; [| assumption].
    destruct (in_status_flow (Some status)) eqn:Hflow; [| assumption].
    apply in_status_flow_iff in Hflow.
    apply get_order_id in Hget as [Hin _].
    rewrite Forall_forall in Ha.
    pose proof (P_status status form order (clock a) Hflow (Ha _ Hin)) as Hp.
    destruct (set_order_status status form order (clock a)) as [order' clk].
    cbn [after db]. apply store_order_forall; [exact Hp |].
    now apply Forall_forall.
  - unfold staff_acknowledge.
    destruct (get_order (db a) order_id) as [order |] eqn:Hget;
      [| assumption].
    apply get_order_id in Hget as [Hin _].
    unfold utcnow. cbn [after db].
    apply store_order_forall; [| assumption].
    apply P_assistance. rewrite Forall_forall in Ha. now apply Ha.
  - unfold table_view.
    destruct (table_by_code _ _); [| assumption].
    destruct method; [assumption |].
    destruct (parse_order_items _ _) eqn:Hsel; [assumption |].
    eapply ordering_keeps; eassumption.
  - unfold customer_call_staff.
    destruct (table_by_code _ _) as [table |]; [| assumption].
    destruct (get_order_of_table (db a) order_id table) as [order |] eqn:Hget;
      [| assumption].
    unfold get_order_of_table in Hget. apply find_some in Hget as [Hin _].
    unfold utcnow. cbn [after db].
    apply store_order_forall; [| assumption].
    apply P_assistance. rewrite Forall_forall in Ha. now apply Ha.
Qed.

Lemma reachable_keeps (a : App) : reachable a -> Forall P (orders (db a)).
Proof.
  induction 1 as [clk | a clk _ IH | r a _ IH].
  - constructor.
  - exact IH.
  - now apply handle_keeps.
Qed.

End OrderLocal.

Lemma scenario_paid_reachable : reachable scenario_paid.
Proof.
  apply (reachable_handle (StaffUpdateStatus 1 scenario_pay_form)).
  apply (reachable_handle
           (StaffNewOrder (Some 2%nat) POST scenario_order_form)).
  apply reachable_start.
Qed.

Lemma set_order_status_keeps status form o clk :
  let o' := fst (set_order_status status form o clk) in
  Order.id o' = Order.id o
  /\ Order.table_id o' = Order.table_id o
  /\ Order.total_amount o' = Order.total_amount o
  /\ Order.created_at o' = Order.created_at o
  /\ Order.requested_assistance o' = Order.requested_assistance o
  /\ Order.created_by_id o' = Order.created_by_id o
  /\ Order.items o' = Order.items o.
Proof.
  unfold set_order_status; cbn.
  destruct (String.eqb status "paid"); cbn; repeat split.
Qed.

Lemma paid_fields_kept (a : App) :
  reachable a -> Forall paid_fields_consistent (orders (db a)).
Proof.
  apply reachable_keeps.
  - intros a0 table u selected order a' _ _ Hplace.
    destruct (place_order_stores _ _ _ _ _ _ Hplace)
      as (_ & _ & _ & Hst & Hpaid & Hpm & _).
    unfold paid_fields_consistent. rewrite Hst, Hpaid, Hpm.
    repeat split; intros H; try discriminate; now elim H.
  - intros status form o clk _ _. unfold paid_fields_consistent.
    unfold set_order_status; cbn.
    destruct (String.eqb_spec status "paid") as [-> | Hne]; cbn.
    + repeat split; intros; try discriminate; reflexivity.
    + repeat split; intros H; try contradiction; now elim H.
  - intros flag now o Ho. exact Ho.
Qed.

(** X7: in every application that can arise, an order carries a time
    of payment exactly when its status is "paid", and a payment method
    only then. *)
Theorem paid_at_is_set_exactly_on_paid_orders (a : App) :
  reachable a ->
  Forall (fun o => (Order.paid_at o <> None <-> Order.status o = "paid")
                   /\ (Order.payment_method o <> None ->
                       Order.status o = "paid"))
         (orders (db a)).
Proof. exact (paid_fields_kept a). Qed.

Lemma paid_at_is_set_exactly_on_paid_orders_witness :
  Forall (fun o => (Order.paid_at o <> None <-> Order.status o = "paid")
                   /\ (Order.payment_method o <> None ->
                       Order.status o = "paid"))
         (orders (db scenario_paid)).
Proof.
  apply (paid_at_is_set_exactly_on_paid_orders scenario_paid).
  exact scenario_paid_reachable.
Defined.

Lemma lines_kept (a : App) :
  reachable a -> Forall lines_consistent (orders (db a)).
Proof.
  apply reachable_keeps.
  - intros a0 table u selected order a' Hne Hpos Hplace.
    destruct (place_order_stores _ _ _ _ _ _ Hplace)
      as (_ & Hitems & _ & _ & _ & _ & _ & _ & Htotal & _).
    unfold lines_consistent. split; [| split; [| exact Htotal]].
    + rewrite Hitems. destruct selected as [| [m q] rest]; [now elim Hne |].
      discriminate.
    + rewrite Hitems. now apply order_items_of_forall.
  - intros status form o clk _ Ho. unfold lines_consistent in *.
    destruct (set_order_status_keeps status form o clk)
      as (-> & _ & -> & _ & _ & _ & ->).
    exact Ho.
  - intros flag now o Ho. exact Ho.
Qed.

(** X8: in every application that can arise, each order has at least
    one line, each line has a positive quantity and belongs to that
    order, and the stored total is the sum of the lines' subtotals:
    calling [recalculate_total] on a stored order never changes its
    total. *)
Theorem stored_totals_are_current (a : App) :
  reachable a ->
  Forall (fun o =>
            Order.items o <> []
            /\ Forall (fun it => 0 < OrderItem.quantity it
                                 /\ OrderItem.order_id it = Order.id o)
                      (Order.items o)
            /\ forall clk,
                 exists o' clk',
                   Order.recalculate_total o clk = Some (o', clk')
                   /\ Order.total_amount o' = Order.total_amount o)
         (orders (db a)).
Proof.
  intros Hreach. eapply Forall_impl; [| exact (lines_kept a Hreach)].
  intros o (Hne & Hlines & ss & Hsub & Htotal).
  repeat split; try assumption.
  intros clk. unfold Order.recalculate_total. rewrite Hsub. cbn.
  do 2 eexists. split; [reflexivity |]. cbn. now symmetry.
Qed.

Lemma stored_totals_are_current_witness :
  Forall (fun o =>
            Order.items o <> []
            /\ Forall (fun it => 0 < OrderItem.quantity it
                                 /\ OrderItem.order_id it = Order.id o)
                      (Order.items o)
            /\ forall clk,
                 exists o' clk',
                   Order.recalculate_total o clk = Some (o', clk')
                   /\ Order.total_amount o' = Order.total_amount o)
         (orders (db scenario_paid)).
Proof.
  apply (stored_totals_are_current scenario_paid).
  exact scenario_paid_reachable.
Defined.

(** ** The effect of a request on the tables *)

Lemma upper_char_idem (c : ascii) :
  Text.upper_char (Text.upper_char c) = Text.upper_char c.
Proof. each_char c. Qed.

Lemma upper_idem (s : string) : Text.upper (Text.upper s) = Text.upper s.
Proof.
  induction s as [| c r IH]; simpl; [reflexivity |].
  now rewrite upper_char_idem, IH.
Qed.

Lemma is_empty_false (s : string) : Text.is_empty s = false -> s <> "".
Proof. destruct s; [discriminate | discriminate]. Qed.

Lemma strip_strip (s : string) : Text.strip (Text.strip s) = Text.strip s.
Proof.
  unfold Text.strip. pose proof (lstrip_head s) as Hhead.
  destruct (Text.lstrip s) as [| c r]; [reflexivity |].
  rewrite (rstrip_head c r Hhead), lstrip_fixed by exact Hhead.
  rewrite <- (rstrip_head c r Hhead). apply rstrip_idem.
Qed.

Lemma strip_clean (s : string) :
  Text.is_empty (Text.strip s) = false -> clean (Text.strip s).
Proof.
  intros H. split; [now apply is_empty_false | apply strip_strip].
Qed.

Lemma upper_char_space (c : ascii) :
  Text.is_space (Text.upper_char c) = Text.is_space c.
Proof. each_char c. Qed.

Lemma upper_is_empty (s : string) :
  Text.is_empty (Text.upper s) = Text.is_empty s.
Proof. now destruct s. Qed.

Lemma upper_lstrip (s : string) :
  Text.lstrip (Text.upper s) = Text.upper (Text.lstrip s).
Proof.
  induction s as [| c r IH]; simpl; [reflexivity |].
  rewrite upper_char_space. now destruct (Text.is_space c).
Qed.

Lemma upper_rstrip (s : string) :
  Text.rstrip (Text.upper s) = Text.upper (Text.rstrip s).
Proof.
  induction s as [| c r IH]; simpl; [reflexivity |].
  rewrite IH, upper_is_empty, upper_char_space.
  now destruct (Text.is_empty (Text.rstrip r) && Text.is_space c).
Qed.

Lemma upper_strip (s : string) :
  Text.strip (Text.upper s) = Text.upper (Text.strip s).
Proof. unfold Text.strip. now rewrite upper_lstrip, upper_rstrip. Qed.

Lemma form_category_clean (form : Form) (c : string) :
  form_category form = Some c -> clean c.
Proof.
  unfold form_category.
  destruct (Text.is_empty (Text.strip (form_get_or_empty form "category")))
    eqn:E; [discriminate |].
  intros [= <-]. now apply strip_clean.
Qed.

Lemma place_order_step (a : App) table created_by selected order a' :
  In table (dining_tables (db a)) ->
  place_order a table created_by selected = Some (order, a') ->
  db_step (db a) (db a').
Proof.
  intros Hin Hplace.
  destruct (place_order_stores _ _ _ _ _ _ Hplace)
    as (Hid & Hitems & Htab & _ & _ & _ & _ & _ & _ & Ht & Hm & Ho).
  apply (step_order_new _ _ table order selected); try assumption.
  destruct (db a') as [t' m' o']. cbn in *. now subst.
Qed.

(** Every request changes the database in one of the ways of
    [db_step]. *)
Lemma handle_step (r : Request) (a : App) :
  db_step (db a) (db (after (handle r a))).
Proof.
  destruct r; cbn [handle].
  - unfold admin_menu_new.
    destruct method; [now apply step_same |].
    destruct price_value; [| now apply step_same].
    destruct (Text.is_empty _) eqn:Hname; [now apply step_same |].
    cbn [after db]. eapply step_menu_add; [| | reflexivity];
      [reflexivity |].
    split; [| split]; cbn.
    + now apply strip_clean.
    + apply strip_strip.
    + apply form_category_clean.
  - unfold admin_menu_edit.
    destruct (get_menu_item (db a) item_id); [| now apply step_same].
    destruct method; [now apply step_same |].
    destruct price_value; [| now apply step_same].
    destruct (Text.is_empty _) eqn:Hname; [now apply step_same |].
    cbn [after db]. eapply step_menu_edit; [| reflexivity].
    split; [| split]; cbn.
    + now apply strip_clean.
    + apply strip_strip.
    + apply form_category_clean.
  - unfold admin_menu_delete.
    destruct (get_menu_item (db a) item_id); [| now apply step_same].
    cbn [after db]. eapply step_menu_delete. reflexivity.
  - unfold admin_tables.
    destruct method; [now apply step_same |].
    destruct (Text.is_empty _ || Text.is_empty _) eqn:Hempty;
      [now apply step_same |].
    apply orb_false_iff in Hempty as [Hname Hcode].
    destruct (table_by_code _ _) eqn:Hfind; [now apply step_same |].
    cbn [after db]. eapply step_table_add; [| | | | | reflexivity];
      cbn [DiningTable.id DiningTable.code].
    + reflexivity.
    + split; cbn; [now apply strip_clean |].
      split; [now apply is_empty_false |].
      now rewrite upper_strip, strip_strip.
    + now apply is_empty_false.
    + apply upper_idem.
    + exact Hfind.
  - unfold admin_table_delete.
    destruct (get_table (db a) table_id) as [t |]; [| now apply step_same].
    destruct (orders_of_table _ _) eqn:Hords; [| now apply step_same].
    cbn [after db]. eapply step_table_delete; [exact Hords | reflexivity].
  - unfold staff_new_order.
    destruct method; [now apply step_same |].
    destruct (get_table_by_text _ _) as [table |] eqn:Htab;
      [| now apply step_same].
    destruct (parse_order_items _ _); [now apply step_same |].
    destruct (place_order a table user _) as [[order a'] |] eqn:Hplace;
      [| now apply step_same].
    cbn [after]. eapply place_order_step; [| eassumption].
    unfold get_table_by_text in Htab.
    destruct (form_get form "table_id"); [| discriminate].
    now apply find_some in Htab as [Hin _].
  - unfold staff_update_status.
    destruct (get_order (db a) order_id) as [o |] eqn:Hget;
      [| now apply step_same].
    destruct (form_get form "status") as [status |]; [| now apply step_same].
    destruct (in_status_flow (Some status)) eqn:Hflow; [| now apply step_same].
    apply in_status_flow_iff in Hflow.
    apply get_order_id in Hget as [Hin _].
    pose proof (set_order_status_keeps status form o (clock a)) as Hk.
    pose proof (set_order_status_status status form o (clock a)) as Hs.
    destruct (set_order_status status form o (clock a)) as [order clk].
    cbn [fst] in Hk, Hs. destruct Hk as (Hid & Htab & Htot & _ & _ & _ & Hit).
    cbn [after db].
    apply (step_order_update _ _ o order); try assumption; try reflexivity.
    right. now rewrite Hs.
  - unfold staff_acknowledge.
    destruct (get_order (db a) order_id) as [o |] eqn:Hget;
      [| now apply step_same].
    apply get_order_id in Hget as [Hin _].
    unfold utcnow. cbn [after db].
    apply (step_order_update _ _ o
             (Order.set_updated_at (readings (clock a) (ticks (clock a)))
                (Order.set_requested_assistance false o)));
      try exact Hin; try reflexivity.
    now left.
  - unfold table_view.
    destruct (table_by_code _ _) as [table |] eqn:Htab;
      [| now apply step_same].
    destruct method; [now apply step_same |].
    destruct (parse_order_items _ _); [now apply step_same |].
    destruct (place_order a table None _) as [[order a'] |] eqn:Hplace;
      [| now apply step_same].
    cbn [after]. eapply place_order_step; [| eassumption].
    unfold table_by_code in Htab. now apply find_some in Htab as [Hin _].
  - unfold customer_call_staff.
    destruct (table_by_code _ _) as [table |]; [| now apply step_same].
    destruct (get_order_of_table (db a) order_id table) as [o |] eqn:Hget;
      [| now apply step_same].
    unfold get_order_of_table in Hget. apply find_some in Hget as [Hin _].
    unfold utcnow. cbn [after db].
    apply (step_order_update _ _ o
             (Order.set_updated_at (readings (clock a) (ticks (clock a)))
                (Order.set_requested_assistance true o)));
      try exact Hin; try reflexivity.
    now left.
Qed.

(** ** Keys *)

Lemma next_id_above (ids : list nat) (x : nat) :
  In x ids -> (x < next_id ids)%nat.
Proof.
  intros Hin. unfold next_id.
  assert (H : (list_max ids <= list_max ids)%nat) by lia.
  apply list_max_le in H. rewrite Forall_forall in H.
  specialize (H x Hin). lia.
Qed.

Lemma next_id_fresh (ids : list nat) : ~ In (next_id ids) ids.
Proof. intros H. apply next_id_above in H. lia. Qed.

Lemma NoDup_snoc {A : Type} (l : list A) (x : A) :
  NoDup l -> ~ In x l -> NoDup (l ++ [x]).
Proof.
  intros Hl Hx. apply NoDup_app; [assumption | repeat constructor; auto |].
  intros a Ha [<- | []]. contradiction.
Qed.

Lemma filter_keeps_keys {Row Key : Type} (key : Row -> Key)
  (keep : Row -> bool) (rows : list Row) (Hkeys : NoDup (map key rows)) :
  NoDup (map key (filter keep rows)).
Proof.
  induction rows as [| r rows IH]; cbn [filter map] in *; [constructor |].
  pose proof (NoDup_cons_iff (key r) (map key rows)) as [Hcut _].
  destruct (Hcut Hkeys) as [Hfresh Hrest].
  destruct (keep r); cbn [map]; [| now apply IH].
  constructor; [| now apply IH].
  intros Hin. apply Hfresh.
  apply in_map_iff in Hin as (r' & Hr' & Hin).
  apply filter_In in Hin as [Hin _].
  apply in_map_iff. now exists r'.
Qed.

Lemma unique_by_key {A : Type} (f : A -> nat) (l : list A) (x y : A) :
  NoDup (map f l) -> In x l -> In y l -> f x = f y -> x = y.
Proof.
  induction l as [| z l IH]; simpl; [contradiction |].
  intros H. apply NoDup_cons_iff in H as [Hz Hl].
  intros [<- | Hx] [<- | Hy] E; auto.
  - elim Hz. rewrite E. now apply in_map.
  - elim Hz. rewrite <- E. now apply in_map.
Qed.

Lemma find_by_key {A : Type} (f : A -> nat) (l : list A) (x : A) :
  NoDup (map f l) -> In x l ->
  find (fun y => Nat.eqb (f y) (f x)) l = Some x.
Proof.
  induction l as [| z l IH]; simpl; [contradiction |].
  intros H. apply NoDup_cons_iff in H as [Hz Hl].
  intros [<- | Hx].
  - now rewrite Nat.eqb_refl.
  - destruct (Nat.eqb_spec (f z) (f x)) as [E | _]; [| auto].
    elim Hz. rewrite E. now apply in_map.
Qed.

Lemma store_order_ids (order : Order.t) (d : Db) :
  map Order.id (orders (store_order order d)) = map Order.id (orders d).
Proof.
  unfold store_order; cbn [orders]. rewrite map_map.
  apply map_ext. intros o.
  destruct (Nat.eqb_spec (Order.id o) (Order.id order)); auto.
Qed.

Lemma store_menu_item_ids (item : MenuItem.t) (d : Db) :
  map MenuItem.id (menu_items (store_menu_item item d))
  = map MenuItem.id (menu_items d).
Proof.
  unfold store_menu_item; cbn [menu_items]. rewrite map_map.
  apply map_ext. intros m.
  destruct (Nat.eqb_spec (MenuItem.id m) (MenuItem.id item)); auto.
Qed.

(** With unique keys, [store_order] rewrites one row only. *)
Lemma store_order_one_row (o order : Order.t) (d : Db) :
  NoDup (map Order.id (orders d)) -> In o (orders d) ->
  Order.id order = Order.id o ->
  forall x, In x (orders d) ->
            (if Nat.eqb (Order.id x) (Order.id order) then order else x)
            = (if Nat.eqb (Order.id x) (Order.id o) then order else x)
            /\ (Nat.eqb (Order.id x) (Order.id o) = true -> x = o).
Proof.
  intros Hnd Ho Hid x Hx. rewrite Hid. split; [reflexivity |].
  intros E. apply Nat.eqb_eq in E.
  exact (unique_by_key Order.id (orders d) x o Hnd Hx Ho E).
Qed.

Lemma store_order_items (o order : Order.t) (d : Db) :
  NoDup (map Order.id (orders d)) -> In o (orders d) ->
  Order.id order = Order.id o -> Order.items order = Order.items o ->
  all_order_items (store_order order d) = all_order_items d.
Proof.
  intros Hnd Ho Hid Hitems. unfold all_order_items, store_order.
  cbn [orders].
  assert (H : forall x, In x (orders d) ->
                        Order.items (if Nat.eqb (Order.id x) (Order.id order)
                                     then order else x)
                        = Order.items x).
  { intros x Hx.
    destruct (store_order_one_row o order d Hnd Ho Hid x Hx) as [_ Hone].
    rewrite Hid.
    destruct (Nat.eqb (Order.id x) (Order.id o)) eqn:E; [| reflexivity].
    now rewrite (Hone eq_refl). }
  revert H. generalize (orders d) as l.
  induction l as [| x l IH]; intros H; cbn [map flat_map]; [reflexivity |].
  rewrite (H x (or_introl eq_refl)). f_equal.
  apply IH. intros y Hy. apply H. now right.
Qed.

Lemma order_items_of_ids (order_id next : nat)
  (selected : list (MenuItem.t * Z)) :
  map OrderItem.id (order_items_of order_id next selected)
  = seq next (List.length selected).
Proof.
  revert next. induction selected as [| [m q] rest IH]; intros next; simpl.
  - reflexivity.
  - now rewrite IH.
Qed.

Lemma table_exists_incl (d d' : Db) (o : Order.t) :
  incl (dining_tables d) (dining_tables d') ->
  table_exists d o -> table_exists d' o.
Proof. intros Hincl (t & Hin & E). exists t. split; auto. Qed.

Lemma tables_exist_same (d d' : Db) :
  dining_tables d' = dining_tables d -> orders d' = orders d ->
  Forall (table_exists d) (orders d) -> Forall (table_exists d') (orders d').
Proof.
  intros Ht Ho H. rewrite Ho. eapply Forall_impl; [| exact H].
  intros o. apply table_exists_incl. rewrite Ht. apply incl_refl.
Qed.

Lemma code_not_stored (d : Db) (code : string) :
  table_by_code d code = None ->
  ~ In code (map DiningTable.code (dining_tables d)).
Proof.
  unfold table_by_code. intros Hnone Hin.
  apply in_map_iff in Hin as (t & E & Ht).
  pose proof (find_none _ _ Hnone t Ht) as H. cbn in H.
  rewrite E, String.eqb_refl in H. discriminate.
Qed.

(** The ways a request changes the database keep it sound. *)
Lemma db_step_sound (d d' : Db) : db_sound d -> db_step d d' -> db_sound d'.
Proof.
  intros [Hoid Hiid Hmid Htid Hcode Hnorm Htab] Hstep.
  destruct Hstep as [-> | item Hid _ -> | item _ -> | item_id ->
                     | t Hid _ Hne Hup Hfree -> | t Hnone ->
                     | table order selected Hin Htable Hid Hitems ->
                     | o order Hin Hid Htable Hitems Htotal Hstatus ->].
  - now constructor.
  - constructor; cbn [orders menu_items dining_tables all_order_items];
      try assumption.
    rewrite map_app. cbn [map]. apply NoDup_snoc; [assumption |].
    rewrite Hid. apply next_id_fresh.
  - constructor; try assumption.
    now rewrite store_menu_item_ids.
  - constructor; cbn [orders menu_items dining_tables all_order_items];
      try assumption.
    now apply filter_keeps_keys.
  - assert (Hold : Forall (table_exists
                             (mk_db (dining_tables d ++ [t]) (menu_items d)
                                    (orders d))) (orders d)).
    { eapply Forall_impl; [| exact Htab].
      intros o. apply table_exists_incl. cbn [dining_tables].
      apply incl_appl, incl_refl. }
    constructor; cbn [orders menu_items dining_tables all_order_items];
      try assumption.
    + rewrite map_app. cbn [map]. apply NoDup_snoc; [assumption |].
      rewrite Hid. apply next_id_fresh.
    + rewrite map_app. cbn [map]. apply NoDup_snoc; [assumption |].
      now apply code_not_stored.
    + apply Forall_app. split; [assumption |]. now repeat constructor.
  - assert (Hold : Forall (table_exists
                             (mk_db
                                (filter
                                   (fun x => negb (Nat.eqb (DiningTable.id x)
                                                     (DiningTable.id t)))
                                   (dining_tables d))
                                (menu_items d) (orders d))) (orders d)).
    { rewrite Forall_forall in Htab |- *. intros o Ho.
      destruct (Htab o Ho) as (t' & Ht' & E).
      exists t'. split; [| assumption]. cbn [dining_tables].
      apply filter_In. split; [assumption |].
      apply negb_true_iff, Nat.eqb_neq. intros Eid.
      assert (Hof : In o (orders_of_table d t)).
      { unfold orders_of_table. apply filter_In. split; [assumption |].
        apply Nat.eqb_eq. congruence. }
      rewrite Hnone in Hof. contradiction. }
    constructor; cbn [orders menu_items dining_tables all_order_items];
      try assumption.
    + now apply filter_keeps_keys.
    + now apply filter_keeps_keys.
    + rewrite Forall_forall in Hnorm |- *. intros x Hx.
      apply filter_In in Hx as [Hx _]. now apply Hnorm.
  - assert (Hnew : table_exists
                     (mk_db (dining_tables d) (menu_items d)
                            (orders d ++ [order])) order).
    { exists table. split; [assumption | now symmetry]. }
    constructor; cbn [orders menu_items dining_tables]; try assumption.
    + rewrite map_app. cbn [map]. apply NoDup_snoc; [assumption |].
      rewrite Hid. apply next_id_fresh.
    + unfold all_order_items. cbn [orders].
      rewrite flat_map_app, map_app. cbn [flat_map].
      rewrite app_nil_r, Hitems, order_items_of_ids.
      apply NoDup_app; [assumption | apply seq_NoDup |].
      intros x Hx Hseq. apply in_seq in Hseq as [Hle _].
      apply next_id_above in Hx. unfold all_order_items in Hle. lia.
    + apply Forall_app. split; [assumption |]. now repeat constructor.
  - assert (Hnew : table_exists (store_order order d) order).
    { rewrite Forall_forall in Htab.
      destruct (Htab o Hin) as (t & Ht & E).
      exists t. split; [assumption | congruence]. }
    constructor; try assumption.
    + now rewrite store_order_ids.
    + now rewrite (store_order_items o order d).
    + now apply store_order_forall.
Qed.

Lemma seed_data_sound (d : Db) : db_sound d -> db_sound (seed_data d).
Proof.
  intros [Hoid Hiid Hmid Htid Hcode Hnorm Htab].
  assert (Hseq : forall l : list nat, l = [1; 2; 3; 4]%nat -> NoDup l).
  { intros l ->. repeat constructor; simpl; intuition discriminate. }
  constructor; unfold seed_data;
    cbn [orders menu_items dining_tables all_order_items]; try assumption.
  - destruct (menu_items d); [| assumption].
    now apply Hseq.
  - destruct (dining_tables d); [| assumption].
    repeat constructor; simpl; intuition discriminate.
  - destruct (dining_tables d); [| assumption].
    repeat constructor; simpl; intuition discriminate.
  - destruct (dining_tables d); [| assumption].
    repeat constructor; discriminate.
  - destruct (dining_tables d) eqn:Et.
    + destruct (orders d) as [| o l]; [constructor |].
      apply Forall_inv in Htab. destruct Htab as (t & Hin & _).
      rewrite Et in Hin. contradiction.
    + eapply Forall_impl; [| exact Htab].
      intros o. apply table_exists_incl. cbn [dining_tables].
      rewrite Et. apply incl_refl.
Qed.

Lemma empty_db_sound : db_sound empty_db.
Proof. constructor; cbn; constructor. Qed.

Lemma reachable_sound (a : App) : reachable a -> db_sound (db a).
Proof.
  induction 1 as [clk | a clk _ IH | r a _ IH]; cbn [db].
  - apply seed_data_sound, empty_db_sound.
  - now apply seed_data_sound.
  - eapply db_step_sound; [exact IH | apply handle_step].
Qed.

(** X9: in every application that can arise, the identifiers of orders,
    of order lines (across all orders), of menu items and of tables are
    pairwise distinct, so that a lookup by identifier returns the very
    row that carries it. *)
Theorem identifiers_are_keys (a : App) :
  reachable a ->
  NoDup (map Order.id (orders (db a)))
  /\ NoDup (map OrderItem.id (all_order_items (db a)))
  /\ NoDup (map MenuItem.id (menu_items (db a)))
  /\ NoDup (map DiningTable.id (dining_tables (db a)))
  /\ (forall o, In o (orders (db a)) ->
                get_order (db a) (Order.id o) = Some o)
  /\ (forall m, In m (menu_items (db a)) ->
                get_menu_item (db a) (MenuItem.id m) = Some m)
  /\ (forall t, In t (dining_tables (db a)) ->
                get_table (db a) (DiningTable.id t) = Some t).
Proof.
  intros Hreach.
  destruct (reachable_sound a Hreach) as [Hoid Hiid Hmid Htid _ _ _].
  repeat split; try assumption.
  - intros o Ho. now apply (find_by_key Order.id).
  - intros m Hm. now apply (find_by_key MenuItem.id).
  - intros t Ht. now apply (find_by_key DiningTable.id).
Qed.

Lemma identifiers_are_keys_witness :
  NoDup (map Order.id (orders (db scenario_paid)))
  /\ NoDup (map OrderItem.id (all_order_items (db scenario_paid)))
  /\ NoDup (map MenuItem.id (menu_items (db scenario_paid)))
  /\ NoDup (map DiningTable.id (dining_tables (db scenario_paid)))
  /\ (forall o, In o (orders (db scenario_paid)) ->
                get_order (db scenario_paid) (Order.id o) = Some o)
  /\ (forall m, In m (menu_items (db scenario_paid)) ->
                get_menu_item (db scenario_paid) (MenuItem.id m) = Some m)
  /\ (forall t, In t (dining_tables (db scenario_paid)) ->
                get_table (db scenario_paid) (DiningTable.id t) = Some t).
Proof.
  apply (identifiers_are_keys scenario_paid).
  exact scenario_paid_reachable.
Defined.

(** X10: in every application that can arise, the table of each order
    is a stored table: [admin_table_delete] refuses, with a message and
    without a change, to delete a table that has orders. *)
Theorem orders_keep_their_tables (a : App) :
  reachable a ->
  (forall o, In o (orders (db a)) ->
             exists t, get_table (db a) (Order.table_id o) = Some t)
  /\ (forall table_id t,
         get_table (db a) table_id = Some t ->
         orders_of_table (db a) t <> [] ->
         after (admin_table_delete table_id a) = a
         /\ flashes (admin_table_delete table_id a)
            = [flash_table_has_orders]).
Proof.
  intros Hreach.
  destruct (reachable_sound a Hreach) as [_ _ _ Htid _ _ Htab].
  split.
  - intros o Ho. rewrite Forall_forall in Htab.
    destruct (Htab o Ho) as (t & Ht & E).
    exists t. rewrite <- E. now apply (find_by_key DiningTable.id).
  - intros table_id t Hget Hords. unfold admin_table_delete.
    rewrite Hget. destruct (orders_of_table (db a) t); [now elim Hords |].
    split; reflexivity.
Qed.

Lemma orders_keep_their_tables_witness :
  (forall o, In o (orders (db scenario_paid)) ->
             exists t, get_table (db scenario_paid) (Order.table_id o)
                       = Some t)
  /\ (forall table_id t,
         get_table (db scenario_paid) table_id = Some t ->
         orders_of_table (db scenario_paid) t <> [] ->
         after (admin_table_delete table_id scenario_paid) = scenario_paid
         /\ flashes (admin_table_delete table_id scenario_paid)
            = [flash_table_has_orders]).
Proof.
  apply (orders_keep_their_tables scenario_paid).
  exact scenario_paid_reachable.
Defined.

Lemma find_by_code (l : list DiningTable.t) (t : DiningTable.t) :
  NoDup (map DiningTable.code l) -> In t l ->
  find (fun x => String.eqb (DiningTable.code x) (DiningTable.code t)) l
  = Some t.
Proof.
  induction l as [| z l IH]; simpl; [contradiction |].
  intros H. apply NoDup_cons_iff in H as [Hz Hl].
  intros [<- | Hx].
  - now rewrite String.eqb_refl.
  - destruct (String.eqb_spec (DiningTable.code z) (DiningTable.code t))
      as [E | _]; [| auto].
    elim Hz. rewrite E. now apply in_map.
Qed.

(** X11: in every application that can arise, the codes of the tables
    are pairwise distinct, not empty and in upper case, so that the
    page of a table is found from its code written in any mix of upper
    and lower case. *)
Theorem table_codes_are_keys (a : App) :
  reachable a ->
  NoDup (map DiningTable.code (dining_tables (db a)))
  /\ Forall (fun t => DiningTable.code t <> ""
                      /\ Text.upper (DiningTable.code t) = DiningTable.code t)
            (dining_tables (db a))
  /\ (forall t code,
         In t (dining_tables (db a)) ->
         Text.upper code = DiningTable.code t ->
         table_by_code (db a) (Text.upper code) = Some t).
Proof.
  intros Hreach.
  destruct (reachable_sound a Hreach) as [_ _ _ _ Hcode Hnorm _].
  repeat split; try assumption.
  intros t code Ht E. unfold table_by_code. rewrite E.
  now apply find_by_code.
Qed.

Lemma table_codes_are_keys_witness :
  NoDup (map DiningTable.code (dining_tables (db scenario_paid)))
  /\ Forall (fun t => DiningTable.code t <> ""
                      /\ Text.upper (DiningTable.code t) = DiningTable.code t)
            (dining_tables (db scenario_paid))
  /\ (forall t code,
         In t (dining_tables (db scenario_paid)) ->
         Text.upper code = DiningTable.code t ->
         table_by_code (db scenario_paid) (Text.upper code) = Some t).
Proof.
  apply (table_codes_are_keys scenario_paid).
  exact scenario_paid_reachable.
Defined.

(** ** Orders, the catalogue and the sales *)

Lemma admin_requests_keep_orders (r : Request) (a : App) :
  is_admin_request r = true ->
  orders (db (after (handle r a))) = orders (db a).
Proof.
  destruct r; try discriminate; intros _; cbn [handle].
  - unfold admin_menu_new.
    destruct method; [reflexivity |].
    destruct price_value; [| reflexivity].
    now destruct (Text.is_empty _).
  - unfold admin_menu_edit.
    destruct (get_menu_item (db a) item_id); [| reflexivity].
    destruct method; [reflexivity |].
    destruct price_value; [| reflexivity].
    now destruct (Text.is_empty _).
  - unfold admin_menu_delete.
    now destruct (get_menu_item (db a) item_id).
  - unfold admin_tables.
    destruct method; [reflexivity |].
    destruct (Text.is_empty _ || Text.is_empty _); [reflexivity |].
    now destruct (table_by_code _ _).
  - unfold admin_table_delete.
    destruct (get_table (db a) table_id); [| reflexivity].
    now destruct (orders_of_table _ _).
Qed.

(** X12: no request of the catalogue (adding, editing or deleting a
    menu item or a table) changes an order: the lines keep the prices
    they were ordered at, and totals and sales stay as they are. *)
Theorem catalogue_requests_leave_orders (r : Request) (a : App) :
  is_admin_request r = true ->
  orders (db (after (handle r a))) = orders (db a)
  /\ all_order_items (db (after (handle r a))) = all_order_items (db a)
  /\ total_sales (db (after (handle r a))) = total_sales (db a)
  /\ forall today,
       today_sales today (db (after (handle r a)))
       = today_sales today (db a).
Proof.
  intros Hr. pose proof (admin_requests_keep_orders r a Hr) as E.
  unfold all_order_items, total_sales, today_sales. rewrite E.
  repeat split.
Qed.

Lemma catalogue_requests_leave_orders_witness :
  option_map MenuItem.price (get_menu_item (db scenario_ordered) 1)
  = Some 80%float
  /\ option_map MenuItem.price (get_menu_item (db scenario_repriced) 1)
     = Some 99%float
  /\ orders (db scenario_repriced) = orders (db scenario_ordered)
  /\ map OrderItem.price (all_order_items (db scenario_repriced))
     = [80%float].
Proof.
  destruct (catalogue_requests_leave_orders
              (AdminMenuEdit 1 POST [("name", "Pad Thai"); ("available", "on")]
                 (Some 99%float)) scenario_ordered eq_refl)
    as (Horders & Hitems & _).
  split; [vm_compute; reflexivity |].
  split; [vm_compute; reflexivity |].
  split; [exact Horders |].
  unfold scenario_repriced.
  change (admin_menu_edit 1 POST [("name", "Pad Thai"); ("available", "on")]
            (Some 99%float) scenario_ordered)
    with (handle (AdminMenuEdit 1 POST
                    [("name", "Pad Thai"); ("available", "on")]
                    (Some 99%float)) scenario_ordered).
  rewrite Hitems. vm_compute. reflexivity.
Defined.

Lemma store_order_view {B : Type} (f : Order.t -> B) (o order : Order.t)
  (d : Db) :
  NoDup (map Order.id (orders d)) -> In o (orders d) ->
  Order.id order = Order.id o -> f order = f o ->
  map f (orders (store_order order d)) = map f (orders d).
Proof.
  intros Hnd Ho Hid Hf. unfold store_order. cbn [orders].
  rewrite map_map. apply map_ext_in. intros x Hx.
  destruct (store_order_one_row o order d Hnd Ho Hid x Hx) as [_ Hone].
  rewrite Hid.
  destruct (Nat.eqb (Order.id x) (Order.id o)) eqn:E; [| reflexivity].
  now rewrite (Hone eq_refl).
Qed.

Lemma cons_eq_inv {A : Type} (x y : A) (l l' : list A) :
  x :: l = y :: l' -> x = y /\ l = l'.
Proof. intros [= -> ->]. now split. Qed.

Lemma sales_of_views (p : string * option datetime * float -> bool)
  (l l' : list Order.t) :
  map sales_view l' = map sales_view l ->
  sum_total_amount (filter (fun o => p (sales_view o)) l')
  = sum_total_amount (filter (fun o => p (sales_view o)) l).
Proof.
  intros E. rewrite !sum_total_amount_sum. f_equal.
  revert l' E. induction l as [| x l IH]; intros [| y l']; cbn [map];
    try discriminate; [reflexivity |].
  intros E. apply cons_eq_inv in E as [Ey El]. cbn [filter]. rewrite Ey.
  destruct (p (sales_view x)); cbn [map]; rewrite (IH l' El);
    [| reflexivity].
  f_equal. unfold sales_view in Ey. congruence.
Qed.

Lemma sales_same (d d' : Db) :
  map sales_view (orders d') = map sales_view (orders d) ->
  total_sales d' = total_sales d
  /\ forall today, today_sales today d' = today_sales today d.
Proof.
  intros E. split.
  - exact (sales_of_views (fun v => String.eqb (fst (fst v)) "paid") _ _ E).
  - intros today.
    exact (sales_of_views
             (fun v => String.eqb (fst (fst v)) "paid"
                       && match snd (fst v) with
                          | None => false
                          | Some t => date_eqb (dt_date t) today
                          end) _ _ E).
Qed.

Lemma pending_order_no_sale (d : Db) (order : Order.t) :
  Order.status order = "pending" ->
  total_sales (mk_db (dining_tables d) (menu_items d) (orders d ++ [order]))
  = total_sales d
  /\ forall today,
       today_sales today
         (mk_db (dining_tables d) (menu_items d) (orders d ++ [order]))
       = today_sales today d.
Proof.
  intros Hst. unfold total_sales, today_sales. cbn [orders].
  split; [| intros today]; rewrite filter_app; cbn [filter];
    unfold paid_on, is_paid; rewrite Hst; cbn; now rewrite app_nil_r.
Qed.

(** X13: in an application that can arise, only a change of status
    moves the sales figures: after any other request the total sales
    and the sales of every day are what they were. *)
Theorem only_status_changes_move_sales (a : App) (r : Request) :
  reachable a ->
  (forall order_id form, r <> StaffUpdateStatus order_id form) ->
  total_sales (db (after (handle r a))) = total_sales (db a)
  /\ forall today,
       today_sales today (db (after (handle r a)))
       = today_sales today (db a).
Proof.
  intros Hreach Hr.
  destruct (reachable_sound a Hreach) as [Hoid _ _ _ _ _ _].
  assert (Hsame : forall a', orders (db a') = orders (db a) ->
            total_sales (db a') = total_sales (db a)
            /\ forall today,
                 today_sales today (db a') = today_sales today (db a)).
  { intros a' E. apply sales_same. now rewrite E. }
  assert (Hplace : forall table u selected (fl : Flash) (r1 r2 : Response),
            let out := match place_order a table u selected with
                       | None => mk_outcome r1 [] a
                       | Some (_, a') => mk_outcome r2 [fl] a'
                       end in
            total_sales (db (after out)) = total_sales (db a)
            /\ forall today,
                 today_sales today (db (after out))
                 = today_sales today (db a)).
  { intros table u selected fl r1 r2.
    destruct (place_order a table u selected) as [[order a'] |] eqn:Hplace;
      cbn [after]; [| now apply Hsame].
    destruct (place_order_stores _ _ _ _ _ _ Hplace)
      as (_ & _ & _ & Hst & _ & _ & _ & _ & _ & Ht & Hm & Ho).
    destruct (pending_order_no_sale (db a) order Hst) as [H1 H2].
    unfold total_sales, today_sales in *. cbn [orders] in H1, H2.
    rewrite Ho. now split. }
  assert (Hflag : forall o flag,
            In o (orders (db a)) ->
            let order := Order.set_updated_at
                           (readings (clock a) (ticks (clock a)))
                           (Order.set_requested_assistance flag o) in
            total_sales (store_order order (db a)) = total_sales (db a)
            /\ forall today,
                 today_sales today (store_order order (db a))
                 = today_sales today (db a)).
  { intros o flag Hin order. apply sales_same.
    now apply (store_order_view sales_view o order). }
  destruct r;
    try (apply Hsame; now apply (admin_requests_keep_orders _ a));
    cbn [handle].
  - unfold staff_new_order.
    destruct method; [now apply Hsame |].
    destruct (get_table_by_text _ _); [| now apply Hsame].
    destruct (parse_order_items _ _); [now apply Hsame |].
    apply Hplace.
  - now elim (Hr order_id form).
  - unfold staff_acknowledge.
    destruct (get_order (db a) order_id) as [o |] eqn:Hget;
      [| now apply Hsame].
    apply get_order_id in Hget as [Hin _].
    unfold utcnow. cbn [after db]. now apply Hflag.
  - unfold table_view.
    destruct (table_by_code _ _); [| now apply Hsame].
    destruct method; [now apply Hsame |].
    destruct (parse_order_items _ _); [now apply Hsame |].
    apply Hplace.
  - unfold customer_call_staff.
    destruct (table_by_code _ _) as [table |]; [| now apply Hsame].
    destruct (get_order_of_table (db a) order_id table) as [o |] eqn:Hget;
      [| now apply Hsame].
    unfold get_order_of_table in Hget. apply find_some in Hget as [Hin _].
    unfold utcnow. cbn [after db]. now apply Hflag.
Qed.

Lemma only_status_changes_move_sales_witness :
  total_sales (db (after (handle (StaffAcknowledge 1) scenario_paid)))
  = total_sales (db scenario_paid)
  /\ forall today,
       today_sales today (db (after (handle (StaffAcknowledge 1)
                                       scenario_paid)))
       = today_sales today (db scenario_paid).
Proof.
  apply (only_status_changes_move_sales scenario_paid (StaffAcknowledge 1)).
  - exact scenario_paid_reachable.
  - discriminate.
Defined.

(** ** Calling the staff *)

Lemma get_order_some (d : Db) (o : Order.t) :
  In o (orders d) -> exists x, get_order d (Order.id o) = Some x.
Proof.
  intros Hin. unfold get_order.
  destruct (find _ (orders d)) as [x |] eqn:E; [now exists x |].
  pose proof (find_none _ _ E o Hin) as H. cbn in H.
  rewrite Nat.eqb_refl in H. discriminate.
Qed.

Lemma get_order_of_table_found (d : Db) (order_id : nat)
  (table : DiningTable.t) (o : Order.t) :
  get_order_of_table d order_id table = Some o ->
  In o (orders d) /\ Order.id o = order_id
  /\ Order.table_id o = DiningTable.id table.
Proof.
  unfold get_order_of_table. intros H. apply find_some in H as [Hin E].
  apply andb_true_iff in E as [E1 E2].
  apply Nat.eqb_eq in E1, E2. auto.
Qed.

(** X14: a customer who gives the code of the table of an order raises
    its assistance flag, and the acknowledgement of the staff lowers it
    again; both stamp [updated_at] with the clock and leave status,
    total, lines and payment fields as they were, whatever the status
    of the order. *)
Theorem call_then_acknowledge (a : App) (code : string) (order_id : nat)
  (table : DiningTable.t) (o : Order.t) :
  table_by_code (db a) (Text.upper code) = Some table ->
  get_order_of_table (db a) order_id table = Some o ->
  exists o1 o2,
    get_order (db (after (customer_call_staff code order_id a))) order_id
    = Some o1
    /\ Order.requested_assistance o1 = true
    /\ Order.updated_at o1 = readings (clock a) (ticks (clock a))
    /\ get_order
         (db (after (staff_acknowledge order_id
                       (after (customer_call_staff code order_id a)))))
         order_id
       = Some o2
    /\ Order.requested_assistance o2 = false
    /\ Order.updated_at o2 = readings (clock a) (S (ticks (clock a)))
    /\ (sales_view o1 = sales_view o /\ sales_view o2 = sales_view o)
    /\ (Order.items o1 = Order.items o /\ Order.items o2 = Order.items o)
    /\ (Order.payment_method o1 = Order.payment_method o
        /\ Order.payment_method o2 = Order.payment_method o).
Proof.
  intros Htab Hget.
  destruct (get_order_of_table_found _ _ _ _ Hget) as (Hin & Hid & _).
  destruct (get_order_some _ _ Hin) as (x & Hx).
  set (o1 := Order.set_updated_at (readings (clock a) (ticks (clock a)))
               (Order.set_requested_assistance true o)).
  set (o2 := Order.set_updated_at (readings (clock a) (S (ticks (clock a))))
               (Order.set_requested_assistance false o1)).
  assert (H1 : after (customer_call_staff code order_id a)
               = mk_app (store_order o1 (db a))
                        (mk_clock (readings (clock a)) (S (ticks (clock a))))).
  { unfold customer_call_staff. now rewrite Htab, Hget. }
  assert (Hg1 : get_order (store_order o1 (db a)) order_id = Some o1).
  { rewrite <- Hid. apply (get_order_store_order (db a) o1 x). exact Hx. }
  assert (H2 : after (staff_acknowledge order_id
                        (after (customer_call_staff code order_id a)))
               = mk_app (store_order o2 (store_order o1 (db a)))
                        (mk_clock (readings (clock a))
                                  (S (S (ticks (clock a)))))).
  { rewrite H1. unfold staff_acknowledge. cbn [db clock].
    now rewrite Hg1. }
  exists o1, o2. rewrite H2, H1. cbn [db].
  split; [exact Hg1 |]. split; [reflexivity |]. split; [reflexivity |].
  split.
  { rewrite <- Hid. apply (get_order_store_order _ o2 o1).
    change (Order.id o2) with (Order.id o). now rewrite Hid. }
  repeat split.
Qed.

Lemma call_then_acknowledge_witness :
  exists o1 o2,
    get_order (db (after (customer_call_staff "t1" 1 scenario_paid))) 1
    = Some o1
    /\ Order.requested_assistance o1 = true
    /\ Order.status o1 = "paid"
    /\ get_order
         (db (after (staff_acknowledge 1
                       (after (customer_call_staff "t1" 1 scenario_paid)))))
         1
       = Some o2
    /\ Order.requested_assistance o2 = false
    /\ Order.total_amount o2 = 160%float.
Proof.
  destruct (table_by_code (db scenario_paid) (Text.upper "t1"))
    as [table |] eqn:Htab; [| vm_compute in Htab; discriminate].
  destruct (get_order_of_table (db scenario_paid) 1 table)
    as [o |] eqn:Hget;
    [| vm_compute in Htab; injection Htab as <-;
       vm_compute in Hget; discriminate].
  destruct (call_then_acknowledge scenario_paid "t1" 1 table o Htab Hget)
    as (o1 & o2 & Hg1 & Hf1 & _ & Hg2 & Hf2 & _ & [Hv1 Hv2] & _).
  exists o1, o2.
  assert (Ho : sales_view o = ("paid", Order.paid_at o, 160%float)).
  { vm_compute in Htab. injection Htab as <-.
    vm_compute in Hget. injection Hget as <-. reflexivity. }
  repeat split; try assumption.
  - rewrite Ho in Hv1. unfold sales_view in Hv1. congruence.
  - rewrite Ho in Hv2. unfold sales_view in Hv2. congruence.
Defined.

(** X15: in an application that can arise, the pages of a table show
    and touch the orders of that table only: with the code of another
    table the order summary is not found and the call for staff is a
    404 that changes nothing. *)
Theorem customer_pages_are_scoped_by_table (a : App) (code : string)
  (table : DiningTable.t) (o : Order.t) :
  reachable a ->
  table_by_code (db a) (Text.upper code) = Some table ->
  In o (orders (db a)) ->
  Order.table_id o <> DiningTable.id table ->
  customer_order_summary code (Order.id o) (db a) = None
  /\ response (customer_call_staff code (Order.id o) a) = Aborted 404
  /\ after (customer_call_staff code (Order.id o) a) = a.
Proof.
  intros Hreach Htab Hin Hother.
  destruct (reachable_sound a Hreach) as [Hoid _ _ _ _ _ _].
  assert (Hnone : get_order_of_table (db a) (Order.id o) table = None).
  { destruct (get_order_of_table (db a) (Order.id o) table) as [x |] eqn:E;
      [| reflexivity].
    destruct (get_order_of_table_found _ _ _ _ E) as (Hx & Hid & Ht).
    rewrite (unique_by_key Order.id _ x o Hoid Hx Hin Hid) in Ht.
    contradiction. }
  unfold customer_order_summary, customer_call_staff.
  rewrite Htab, Hnone. repeat split.
Qed.

Lemma customer_pages_are_scoped_by_table_witness :
  customer_order_summary "t2" 1 (db scenario_paid) = None
  /\ response (customer_call_staff "t2" 1 scenario_paid) = Aborted 404
  /\ after (customer_call_staff "t2" 1 scenario_paid) = scenario_paid.
Proof.
  destruct (get_order (db scenario_paid) 1) as [o |] eqn:Ho;
    [| vm_compute in Ho; discriminate].
  destruct (get_order_id _ _ _ Ho) as [Hin Hid].
  assert (Hother : Order.table_id o <> 2%nat).
  { vm_compute in Ho. injection Ho as <-. cbn. discriminate. }
  pose proof (customer_pages_are_scoped_by_table scenario_paid "t2"
                (DiningTable.mk 2 "T2" "โต๊ะ 2") o
                scenario_paid_reachable eq_refl Hin Hother) as H.
  rewrite Hid in H. exact H.
Defined.

(** ** The progress of an order *)

(** X16: the order summary shows, for an order of a table found by its
    code, the position of the status in the pipeline: in an application
    that can arise it is a number from 0 to 4 that names the status of
    the order, 4 standing for "paid", and never the -1 kept for a
    status outside the pipeline. *)
Theorem status_index_names_the_status (a : App) (code : string)
  (order_id : nat) (o : Order.t) (i : Z) :
  reachable a ->
  customer_order_summary code order_id (db a) = Some (o, i) ->
  In o (orders (db a))
  /\ Order.id o = order_id
  /\ 0 <= i <= 4
  /\ nth_error STATUS_FLOW (Z.to_nat i) = Some (Order.status o)
  /\ (i = 4 <-> Order.status o = "paid").
Proof.
  intros Hreach. unfold customer_order_summary.
  destruct (table_by_code _ _) as [table |]; [| discriminate].
  destruct (get_order_of_table (db a) order_id table) as [x |] eqn:Hget;
    [| discriminate].
  intros [= -> <-].
  destruct (get_order_of_table_found _ _ _ _ Hget) as (Hin & Hid & _).
  split; [assumption |]. split; [assumption |].
  pose proof (reachable_status_ok a Hreach) as Hok.
  rewrite Forall_forall in Hok. specialize (Hok o Hin).
  unfold status_ok in Hok. unfold current_status_index. simpl in Hok.
  destruct Hok as [<- | [<- | [<- | [<- | [<- | []]]]]]; cbn;
    repeat split; try lia; try discriminate; try reflexivity.
Qed.

Lemma status_index_names_the_status_witness :
  exists o,
    customer_order_summary "t1" 1 (db scenario_paid) = Some (o, 4)
    /\ Order.status o = "paid"
    /\ nth_error STATUS_FLOW (Z.to_nat 4) = Some (Order.status o).
Proof.
  destruct (customer_order_summary "t1" 1 (db scenario_paid))
    as [[o i] |] eqn:Hsum; [| vm_compute in Hsum; discriminate].
  destruct (status_index_names_the_status scenario_paid "t1" 1 o i
              scenario_paid_reachable Hsum)
    as (_ & _ & _ & Hnth & Hpaid).
  assert (Hi : i = 4).
  { vm_compute in Hsum. now injection Hsum as _ <-. }
  subst i. exists o. repeat split; [| assumption].
  now apply Hpaid.
Defined.

(** ** The lists of open orders *)

(** X17: the order desk lists every unpaid order exactly once, newest
    first; the admin overview is its first ten entries. *)
Theorem staff_dashboard_lists_every_open_order (d : Db) :
  Permutation (staff_open_orders d) (filter not_paid (orders d))
  /\ StronglySorted
       (fun x y => dt_leb (Order.created_at y) (Order.created_at x) = true)
       (staff_open_orders d)
  /\ (forall o, In o (staff_open_orders d)
                <-> In o (orders d) /\ Order.status o <> "paid")
  /\ open_orders d = firstn 10 (staff_open_orders d).
Proof.
  unfold staff_open_orders.
  assert (Hperm : Permutation
                    (order_by created_at_desc (filter not_paid (orders d)))
                    (filter not_paid (orders d)))
    by apply order_by_perm.
  split; [exact Hperm |]. split; [| split; [| reflexivity]].
  - apply order_by_sorted;
      [exact created_at_desc_total | exact created_at_desc_trans].
  - intros o. split.
    + intros Ho. apply (Permutation_in _ Hperm), filter_In in Ho as [Ho Hs].
      split; [assumption | now apply not_paid_iff].
    + intros [Ho Hs]. apply (Permutation_in _ (Permutation_sym Hperm)).
      apply filter_In. split; [assumption | now apply not_paid_iff].
Qed.

(** X18: the customer page of a table shows its unpaid orders, newest
    first, and takes the first as the latest order: there is none
    exactly when the table has no unpaid order, and otherwise it is an
    unpaid order of the table than which none is newer. *)
Theorem latest_order_is_the_newest_open (d : Db) (table : DiningTable.t) :
  (latest_order d table = None
   <-> forall o, In o (orders d) ->
                 Order.table_id o = DiningTable.id table ->
                 Order.status o = "paid")
  /\ (forall o, latest_order d table = Some o ->
        In o (orders d)
        /\ Order.table_id o = DiningTable.id table
        /\ Order.status o <> "paid"
        /\ forall o', In o' (orders d) ->
                      Order.table_id o' = DiningTable.id table ->
                      Order.status o' <> "paid" ->
                      dt_leb (Order.created_at o') (Order.created_at o)
                      = true).
Proof.
  unfold latest_order, active_orders.
  set (mine := fun o => Nat.eqb (Order.table_id o) (DiningTable.id table)
                        && not_paid o).
  assert (Hperm : Permutation (order_by created_at_desc (filter mine (orders d)))
                              (filter mine (orders d)))
    by apply order_by_perm.
  assert (Hsorted : StronglySorted (fun x y => created_at_desc x y = true)
                      (order_by created_at_desc (filter mine (orders d))))
    by (apply order_by_sorted;
        [exact created_at_desc_total | exact created_at_desc_trans]).
  assert (Hmine : forall o, In o (order_by created_at_desc
                                    (filter mine (orders d)))
                            <-> In o (orders d)
                                /\ Order.table_id o = DiningTable.id table
                                /\ Order.status o <> "paid").
  { intros o. split.
    - intros Ho. apply (Permutation_in _ Hperm), filter_In in Ho as [Ho Hm].
      unfold mine in Hm. apply andb_true_iff in Hm as [Ht Hp].
      apply Nat.eqb_eq in Ht. apply not_paid_iff in Hp. auto.
    - intros (Ho & Ht & Hp).
      apply (Permutation_in _ (Permutation_sym Hperm)), filter_In.
      split; [assumption |]. unfold mine. apply andb_true_iff. split.
      + now apply Nat.eqb_eq.
      + now apply not_paid_iff. }
  destruct (order_by created_at_desc (filter mine (orders d)))
    as [| first rest] eqn:E.
  - split.
    + split; [| reflexivity]. intros _ o Ho Ht.
      destruct (String.eqb_spec (Order.status o) "paid") as [Hp | Hp];
        [assumption |].
      now elim (proj2 (Hmine o) (conj Ho (conj Ht Hp))).
    + discriminate.
  - split.
    + split; [discriminate |]. intros Hall.
      destruct (proj1 (Hmine first) (or_introl eq_refl)) as (Ho & Ht & Hp).
      now elim Hp; apply Hall.
    + intros o [= <-].
      destruct (proj1 (Hmine first) (or_introl eq_refl)) as (Ho & Ht & Hp).
      repeat split; try assumption.
      intros o' Ho' Ht' Hp'.
      destruct (proj2 (Hmine o') (conj Ho' (conj Ht' Hp'))) as [<- | Hin].
      * unfold dt_leb.
        destruct (lex_leb (dt_fields (Order.created_at first))
                          (dt_fields (Order.created_at first))) eqn:El;
          [reflexivity |].
        pose proof (lex_leb_total _ _ El) as H. rewrite El in H.
        discriminate.
      * apply StronglySorted_inv in Hsorted as [_ Hall].
        rewrite Forall_forall in Hall. exact (Hall o' Hin).
Qed.

(** ** Start-up and the tables of the restaurant *)

(** X19: [seed_data] fills the table list and the menu only when they
    are empty and never touches the orders, so that starting the
    application again adds nothing: seeding twice is seeding once. *)
Theorem seed_data_fills_empty_tables_only (d : Db) :
  seed_data (seed_data d) = seed_data d
  /\ orders (seed_data d) = orders d
  /\ (dining_tables d <> [] -> dining_tables (seed_data d) = dining_tables d)
  /\ (menu_items d <> [] -> menu_items (seed_data d) = menu_items d)
  /\ dining_tables (seed_data d) <> []
  /\ menu_items (seed_data d) <> [].
Proof.
  destruct d as [tables menu ords]. unfold seed_data.
  cbn [dining_tables menu_items orders].
  destruct tables as [| t tables]; destruct menu as [| m menu];
    repeat split; try discriminate; try reflexivity;
    intros H; now elim H.
Qed.

Lemma admin_tables_added (form : Form) (a : App) :
  flashes (admin_tables POST form a) = [flash_table_added] ->
  Text.is_empty (Text.strip (form_get_or_empty form "name")) = false
  /\ Text.is_empty (Text.upper (Text.strip (form_get_or_empty form "code")))
     = false
  /\ table_by_code (db a)
       (Text.upper (Text.strip (form_get_or_empty form "code"))) = None
  /\ after (admin_tables POST form a)
     = mk_app
         (mk_db
            (dining_tables (db a)
             ++ [DiningTable.mk
                   (next_id (map DiningTable.id (dining_tables (db a))))
                   (Text.upper (Text.strip (form_get_or_empty form "code")))
                   (Text.strip (form_get_or_empty form "name"))])
            (menu_items (db a)) (orders (db a)))
         (clock a).
Proof.
  unfold admin_tables.
  destruct (Text.is_empty (Text.strip (form_get_or_empty form "name")));
    [discriminate |].
  destruct (Text.is_empty
              (Text.upper (Text.strip (form_get_or_empty form "code"))));
    [discriminate |].
  cbn [orb].
  destruct (table_by_code (db a) _); [discriminate |].
  intros _. repeat split.
Qed.

(** X20: once a table has been added, its code cannot be added again,
    however the second form spells it (lower case, spaces around): the
    second request is answered with the "code exists" message and
    changes nothing. *)
Theorem table_code_cannot_be_added_twice (form form' : Form) (a : App) :
  flashes (admin_tables POST form a) = [flash_table_added] ->
  Text.upper (Text.strip (form_get_or_empty form' "code"))
  = Text.upper (Text.strip (form_get_or_empty form "code")) ->
  Text.strip (form_get_or_empty form' "name") <> "" ->
  flashes (admin_tables POST form' (after (admin_tables POST form a)))
  = [flash_table_exists]
  /\ after (admin_tables POST form' (after (admin_tables POST form a)))
     = after (admin_tables POST form a).
Proof.
  intros Hadded Hcode Hname.
  destruct (admin_tables_added form a Hadded) as (_ & Hc & _ & ->).
  unfold admin_tables. cbn [db clock]. rewrite Hcode, Hc, orb_false_r.
  destruct (Text.strip (form_get_or_empty form' "name")) as [| c r];
    [now elim Hname |].
  cbn [Text.is_empty].
  match goal with
  | |- context [table_by_code ?d ?k] =>
      destruct (table_by_code d k) eqn:Hfind
  end.
  - split; reflexivity.
  - unfold table_by_code in Hfind. cbn [dining_tables] in Hfind.
    match type of Hfind with
    | find _ (_ ++ [?t]) = None =>
        assert (Hin : In t (dining_tables (db a) ++ [t]))
          by (apply in_or_app; right; now left);
        pose proof (find_none _ _ Hfind t Hin) as H
    end.
    cbn in H. rewrite String.eqb_refl in H. discriminate.
Qed.

Lemma table_code_cannot_be_added_twice_witness :
  flashes (admin_tables POST scenario_table_again
             (after (admin_tables POST scenario_table_form scenario_start)))
  = [flash_table_exists]
  /\ after (admin_tables POST scenario_table_again
              (after (admin_tables POST scenario_table_form scenario_start)))
     = after (admin_tables POST scenario_table_form scenario_start).
Proof.
  apply (table_code_cannot_be_added_twice scenario_table_form
           scenario_table_again scenario_start).
  - reflexivity.
  - reflexivity.
  - discriminate.
Defined.

(** ** What can be ordered *)

Lemma lines_of_selection (d : Db) (order_id next : nat)
  (selected : list (MenuItem.t * Z)) :
  Forall (fun sel => 0 < snd sel
                     /\ In (fst sel) (menu_items d)
                     /\ MenuItem.available (fst sel) = true) selected ->
  Forall (line_from_menu d) (order_items_of order_id next selected).
Proof.
  intros H. revert next.
  induction H as [| [m q] rest (Hq & Hin & Hav) _ IH]; intros next; simpl;
    constructor; [| apply IH].
  split; [exact Hq |]. exists m. cbn. auto.
Qed.

Lemma line_items_of_selection (order_id next : nat)
  (selected : list (MenuItem.t * Z)) :
  map OrderItem.menu_item_id (order_items_of order_id next selected)
  = map MenuItem.id (map fst selected).
Proof.
  revert next. induction selected as [| [m q] rest IH]; intros next; simpl.
  - reflexivity.
  - now rewrite IH.
Qed.

(** What the views select comes from the available items of the menu,
    each item once when the identifiers of the menu are distinct. *)
Lemma selection_from_menu (d : Db) (form : Form)
  (leb : MenuItem.t -> MenuItem.t -> bool) :
  let menu := order_by leb (filter MenuItem.available (menu_items d)) in
  Forall (fun sel => 0 < snd sel
                     /\ In (fst sel) (menu_items d)
                     /\ MenuItem.available (fst sel) = true)
         (parse_order_items form menu)
  /\ (NoDup (map MenuItem.id (menu_items d)) ->
      NoDup (map MenuItem.id (map fst (parse_order_items form menu)))).
Proof.
  intros menu.
  assert (Hperm : Permutation menu
                    (filter MenuItem.available (menu_items d)))
    by apply order_by_perm.
  split.
  - eapply Forall_impl; [| apply parse_order_items_positive].
    intros sel [Hq Hin]. split; [assumption |].
    apply (Permutation_in _ Hperm), filter_In in Hin. exact Hin.
  - intros Hnd. rewrite parse_order_items_filter, !map_map. cbn [fst].
    apply (filter_keeps_keys (fun m => MenuItem.id m)).
    apply (Permutation_NoDup
             (Permutation_map MenuItem.id (Permutation_sym Hperm))).
    now apply filter_keeps_keys.
Qed.

Lemma placed_order_lines (a : App) table created_by (form : Form)
  (leb : MenuItem.t -> MenuItem.t -> bool) (fl : Flash) (r r' : Response)
  (order : Order.t) :
  let selected :=
    parse_order_items form
      (order_by leb (filter MenuItem.available (menu_items (db a)))) in
  orders (db (after
     match place_order a table created_by selected with
     | None => mk_outcome r [] a
     | Some (_, a') => mk_outcome r' [fl] a'
     end)) = orders (db a) ++ [order] ->
  Forall (line_from_menu (db a)) (Order.items order)
  /\ (NoDup (map MenuItem.id (menu_items (db a))) ->
      NoDup (map OrderItem.menu_item_id (Order.items order))).
Proof.
  intros selected.
  destruct (selection_from_menu (db a) form leb) as [Hsel Hnd].
  fold selected in Hsel, Hnd.
  destruct (place_order a table created_by selected) as [[o a'] |] eqn:Hplace;
    cbn [after].
  - destruct (place_order_stores _ _ _ _ _ _ Hplace)
      as (_ & Hitems & _ & _ & _ & _ & _ & _ & _ & _ & _ & Ho).
    rewrite Ho. intros E. apply app_inj_tail in E as [_ <-].
    rewrite Hitems. split.
    + now apply lines_of_selection.
    + intros H. rewrite line_items_of_selection. now apply Hnd.
  - intros E. apply (f_equal (@List.length Order.t)) in E.
    rewrite length_app in E. cbn in E. lia.
Qed.

Lemma no_new_order (l : list Order.t) (order : Order.t) : l <> l ++ [order].
Proof.
  intros E. apply (f_equal (@List.length Order.t)) in E.
  rewrite length_app in E. cbn in E. lia.
Qed.

(** X21: an order can only be placed for what is on offer: each line of
    a newly stored order has a positive quantity of a menu item that is
    available at that moment, at the price of the item, whatever other
    fields the form carries; and in an application that can arise no
    two lines of the new order name the same item. *)
Theorem new_order_lines_come_from_the_menu (a : App) (r : Request)
  (order : Order.t) :
  is_ordering_request r = true ->
  orders (db (after (handle r a))) = orders (db a) ++ [order] ->
  Forall (line_from_menu (db a)) (Order.items order)
  /\ (reachable a ->
      NoDup (map OrderItem.menu_item_id (Order.items order))).
Proof.
  intros Hr Hnew.
  assert (Hgoal : Forall (line_from_menu (db a)) (Order.items order)
                  /\ (NoDup (map MenuItem.id (menu_items (db a))) ->
                      NoDup (map OrderItem.menu_item_id
                               (Order.items order)))).
  { destruct r; try discriminate; cbn [handle] in Hnew.
    - unfold staff_new_order in Hnew.
      destruct method; [now elim (no_new_order _ _ Hnew) |].
      destruct (get_table_by_text _ _) as [table |];
        [| now elim (no_new_order _ _ Hnew)].
      unfold staff_menu in Hnew.
      destruct (parse_order_items _ _) eqn:Hsel;
        [now elim (no_new_order _ _ Hnew) |].
      rewrite <- Hsel in Hnew.
      exact (placed_order_lines a table user form by_name _ _ _ order Hnew).
    - unfold table_view in Hnew.
      destruct (table_by_code _ _) as [table |];
        [| now elim (no_new_order _ _ Hnew)].
      destruct method; [now elim (no_new_order _ _ Hnew) |].
      unfold customer_menu in Hnew.
      destruct (parse_order_items _ _) eqn:Hsel;
        [now elim (no_new_order _ _ Hnew) |].
      rewrite <- Hsel in Hnew.
      exact (placed_order_lines a table None form by_category_name _ _ _
               order Hnew). }
  destruct Hgoal as [Hlines Hnd]. split; [exact Hlines |].
  intros Hreach. apply Hnd.
  now destruct (reachable_sound a Hreach).
Qed.

Lemma new_order_lines_come_from_the_menu_witness :
  exists order,
    orders (db (after (handle (TableView "t1" POST scenario_off_menu_form)
                         scenario_off_menu)))
    = [order]
    /\ map (fun it => (OrderItem.menu_item_id it, OrderItem.quantity it))
           (Order.items order) = [(1%nat, 1)]
    /\ Forall (line_from_menu (db scenario_off_menu)) (Order.items order)
    /\ NoDup (map OrderItem.menu_item_id (Order.items order)).
Proof.
  destruct (orders (db (after (handle
                                 (TableView "t1" POST scenario_off_menu_form)
                                 scenario_off_menu))))
    as [| order rest] eqn:E; [vm_compute in E; discriminate |].
  assert (Hrest : rest = []).
  { vm_compute in E. now injection E as _ <-. }
  subst rest.
  assert (Hreach : reachable scenario_off_menu).
  { apply (reachable_handle
             (AdminMenuEdit 2 POST [("name", "Tom Yum")] (Some 120%float))).
    apply reachable_start. }
  destruct (new_order_lines_come_from_the_menu scenario_off_menu
              (TableView "t1" POST scenario_off_menu_form) order eq_refl E)
    as [Hlines Hnd].
  exists order. split; [reflexivity |].
  split; [| split; [exact Hlines | exact (Hnd Hreach)]].
  vm_compute in E. injection E as <-. reflexivity.
Defined.

(** ** The text the forms store *)

Lemma db_step_clean (d d' : Db) :
  catalogue_clean d -> db_step d d' -> catalogue_clean d'.
Proof.
  intros [Hmenu Htables] Hstep.
  destruct Hstep as [-> | item _ Hclean -> | item Hclean -> | item_id ->
                     | t _ Hclean _ _ _ -> | t _ ->
                     | table order selected _ _ _ _ ->
                     | o order _ _ _ _ _ _ ->];
    split; cbn [menu_items dining_tables store_menu_item store_order];
    try assumption.
  - apply Forall_app. split; [assumption |].
    constructor; [assumption | constructor].
  - rewrite Forall_forall in Hmenu |- *. intros m Hm.
    apply in_map_iff in Hm as (x & <- & Hx).
    destruct (Nat.eqb (MenuItem.id x) (MenuItem.id item)); auto.
  - rewrite Forall_forall in Hmenu |- *. intros m Hm.
    apply filter_In in Hm as [Hm _]. auto.
  - apply Forall_app. split; [assumption |].
    constructor; [assumption | constructor].
  - rewrite Forall_forall in Htables |- *. intros x Hx.
    apply filter_In in Hx as [Hx _]. auto.
Qed.

Lemma seed_data_clean (d : Db) : catalogue_clean d -> catalogue_clean (seed_data d).
Proof.
  intros [Hmenu Htables]. unfold seed_data.
  split; cbn [menu_items dining_tables].
  - destruct (menu_items d); [| assumption].
    repeat (apply Forall_cons || apply Forall_nil);
      unfold menu_item_clean, clean;
      cbn [MenuItem.name MenuItem.description MenuItem.category];
      (split; [split; [discriminate | reflexivity] |]);
      (split; [reflexivity |]);
      intros c Hc; injection Hc as <-;
      (split; [discriminate | reflexivity]).
  - destruct (dining_tables d); [| assumption].
    repeat (apply Forall_cons || apply Forall_nil);
      unfold table_clean, clean;
      cbn [DiningTable.name DiningTable.code];
      (split; split; [discriminate | reflexivity | discriminate | reflexivity]).
Qed.

Lemma reachable_clean (a : App) : reachable a -> catalogue_clean (db a).
Proof.
  induction 1 as [clk | a clk _ IH | r a _ IH]; cbn [db].
  - apply seed_data_clean. split; constructor.
  - now apply seed_data_clean.
  - eapply db_step_clean; [exact IH | apply handle_step].
Qed.

(** X22: in every application that can arise, every menu item and every
    table has a name, and every table a code, that is not empty and
    carries no white space at either end; a category is either absent
    or such a text, so that an item with a category is always shown
    under that category and an item without one under the fallback
    label. *)
Theorem stored_names_are_clean (a : App) :
  reachable a ->
  Forall (fun m => clean (MenuItem.name m)
                   /\ (forall c, MenuItem.category m = Some c ->
                                 clean c /\ category_name m = c)
                   /\ (MenuItem.category m = None ->
                       category_name m = fallback_label))
         (menu_items (db a))
  /\ Forall (fun t => clean (DiningTable.name t)
                      /\ clean (DiningTable.code t))
            (dining_tables (db a)).
Proof.
  intros Hreach. destruct (reachable_clean a Hreach) as [Hmenu Htables].
  split; [| exact Htables].
  eapply Forall_impl; [| exact Hmenu].
  intros m (Hname & _ & Hcat). split; [exact Hname |]. split.
  - intros c Hc. destruct (Hcat c Hc) as [Hne Hs].
    split; [now split |]. unfold category_name. rewrite Hc.
    now destruct c.
  - intros Hnone. unfold category_name. now rewrite Hnone.
Qed.

Lemma stored_names_are_clean_witness :
  Forall (fun m => clean (MenuItem.name m)
                   /\ (forall c, MenuItem.category m = Some c ->
                                 clean c /\ category_name m = c)
                   /\ (MenuItem.category m = None ->
                       category_name m = fallback_label))
         (menu_items (db scenario_paid))
  /\ Forall (fun t => clean (DiningTable.name t)
                      /\ clean (DiningTable.code t))
            (dining_tables (db scenario_paid)).
Proof.
  apply (stored_names_are_clean scenario_paid).
  exact scenario_paid_reachable.
Defined.

Lemma payment_methods_kept_clean (a : App) :
  reachable a -> Forall payment_method_clean (orders (db a)).
Proof.
  apply reachable_keeps.
  - intros a0 table u selected order a' _ _ Hplace.
    destruct (place_order_stores _ _ _ _ _ _ Hplace)
      as (_ & _ & _ & _ & _ & Hpm & _).
    intros v Hv. rewrite Hpm in Hv. discriminate.
  - intros status form o clk _ _ v. unfold set_order_status; cbn.
    destruct (String.eqb status "paid"); cbn; [| discriminate].
    destruct (Text.is_empty
                (Text.strip (form_get_or_empty form "payment_method")))
      eqn:E; [discriminate |].
    intros [= <-]. now apply strip_clean.
  - intros flag now o Ho. exact Ho.
Qed.

(** X23: in every application that can arise, a stored payment method
    is never an empty or blank text and never carries white space
    around it: a blank method is stored as none. *)
Theorem stored_payment_methods_are_clean (a : App) :
  reachable a ->
  Forall (fun o => forall v, Order.payment_method o = Some v ->
                             v <> "" /\ Text.strip v = v)
         (orders (db a)).
Proof. exact (payment_methods_kept_clean a). Qed.

Lemma stored_payment_methods_are_clean_witness :
  Forall (fun o => forall v, Order.payment_method o = Some v ->
                             v <> "" /\ Text.strip v = v)
         (orders (db scenario_paid)).
Proof.
  apply (stored_payment_methods_are_clean scenario_paid).
  exact scenario_paid_reachable.
Defined.
